(** * Document viewer: viewport engine, page cursor and PDF relay

    A shallow embedding of [src/components/document-viewer-modal.tsx] and
    [src/app/api/proxy-pdf/route.js].

    Conventions of the embedding.
    - A JavaScript [number] that carries a length, an offset or a scale is a
      rational ([Q]): arithmetic is exact, where JavaScript rounds every
      operation to the nearest double.  The module [Double] gives the fit
      calculator in that arithmetic as well, to show what the rounding
      does to its properties.  A quotient by zero, an infinity
      or NaN in JavaScript, is 0 in [Q]; the properties are stated for
      non-zero divisors (a measured page, a positive scale, a container of
      non-zero extent) wherever the value of a quotient matters.  Page
      counters are integers ([Z]).  [clientWidth], [clientHeight], [scrollWidth] and
      [scrollHeight] are the non-negative integers the DOM reports ([N]).
    - The component instance is a record [Viewer] holding every [useState]
      cell and every value ref; a handler is a function from the instance
      before the event to the instance after it.  The handlers bound
      through JSX props are those of the latest render and read its state.
      The wheel listener is attached by an effect that runs again only when
      [isFocused] or [scale] changes: it reads the current [isFocused] and
      [scale], and the [fitScale] of the render it was registered in, which
      the instance keeps as [wheelFitScale].  A ref is written at once, a
      [useState] cell for the next render, so that within one handler
      [scale] is the old scale throughout.
    - What the handlers measure on the page (element refs, bounding boxes)
      is an input of the event, the record [Dom]. *)

From Stdlib Require Import ZArith NArith QArith Qminmax Lqa Lia Bool List String Ascii.
From Stdlib Require Import Qround.
From Stdlib Require PrimFloat Uint63.
Import ListNotations.

Local Open Scope Q_scope.

(** ** Data model *)

Record Position : Type := mkPosition { x : Q; y : Q }.

(** [style.transform] of the viewer element:
    [translate(tx px, ty px) scale(s)], transform origin top-left. *)
Record Transform : Type := mkTransform {
  translateX : Q;
  translateY : Q;
  scaleBy : Q
}.

Record DOMRect : Type := mkRect { left : Q; top : Q; width : Q; height : Q }.

(** [containerRef.current] *)
Record ContainerEl : Type := mkContainer {
  clientWidth : N;
  clientHeight : N;
  containerRect : DOMRect      (* getBoundingClientRect() *)
}.

(** [pageRef.current] *)
Record PageEl : Type := mkPage { scrollWidth : N; scrollHeight : N }.

(** The three element refs as an event finds them; [None] is a [null] ref.
    For the viewer element only its bounding box is read. *)
Record Dom : Type := mkDom {
  containerRef : option ContainerEl;
  viewerRef : option DOMRect;
  pageRef : option PageEl
}.

Record Viewer : Type := mkViewer {
  numPages : Z;
  pageNumber : Z;
  scale : Q;
  fitScale : Q;
  error : option string;
  isLoading : bool;
  isPanning : bool;
  isFocused : bool;
  startPanRef : Position;
  panOffsetRef : Position;
  lastTransformRef : Position;
  activeMode : string;
  viewerTransform : option Transform;  (* viewerRef.current.style.transform *)
  wheelFitScale : Q   (* [fitScale] in the closure of the attached wheel listener *)
}.

Definition BASE_SCALE : Q := 1.
Definition PADDING : Q := 20.
Definition MAX_SCALE : Q := 5.
Definition MIN_SCALE_FACTOR : Q := 5 # 10.

Definition origin : Position := mkPosition 0 0.

(** The instance as [useState]/[useRef] initialise it. *)
Definition initialViewer : Viewer :=
  {| numPages := 0; pageNumber := 1; scale := 1; fitScale := 1;
     error := None; isLoading := true; isPanning := false; isFocused := false;
     startPanRef := origin; panOffsetRef := origin; lastTransformRef := origin;
     activeMode := "drag"%string; viewerTransform := None;
     wheelFitScale := 1 |}.

(** *** State setters *)

Definition setNumPages (v : Z) (s : Viewer) : Viewer :=
  mkViewer v (pageNumber s) (scale s) (fitScale s) (error s) (isLoading s)
    (isPanning s) (isFocused s) (startPanRef s) (panOffsetRef s)
    (lastTransformRef s) (activeMode s) (viewerTransform s) (wheelFitScale s).

Definition setPageNumber (v : Z) (s : Viewer) : Viewer :=
  mkViewer (numPages s) v (scale s) (fitScale s) (error s) (isLoading s)
    (isPanning s) (isFocused s) (startPanRef s) (panOffsetRef s)
    (lastTransformRef s) (activeMode s) (viewerTransform s) (wheelFitScale s).

Definition setScale (v : Q) (s : Viewer) : Viewer :=
  mkViewer (numPages s) (pageNumber s) v (fitScale s) (error s) (isLoading s)
    (isPanning s) (isFocused s) (startPanRef s) (panOffsetRef s)
    (lastTransformRef s) (activeMode s) (viewerTransform s) (wheelFitScale s).

Definition setFitScale (v : Q) (s : Viewer) : Viewer :=
  mkViewer (numPages s) (pageNumber s) (scale s) v (error s) (isLoading s)
    (isPanning s) (isFocused s) (startPanRef s) (panOffsetRef s)
    (lastTransformRef s) (activeMode s) (viewerTransform s) (wheelFitScale s).

Definition setError (v : option string) (s : Viewer) : Viewer :=
  mkViewer (numPages s) (pageNumber s) (scale s) (fitScale s) v (isLoading s)
    (isPanning s) (isFocused s) (startPanRef s) (panOffsetRef s)
    (lastTransformRef s) (activeMode s) (viewerTransform s) (wheelFitScale s).

Definition setIsLoading (v : bool) (s : Viewer) : Viewer :=
  mkViewer (numPages s) (pageNumber s) (scale s) (fitScale s) (error s) v
    (isPanning s) (isFocused s) (startPanRef s) (panOffsetRef s)
    (lastTransformRef s) (activeMode s) (viewerTransform s) (wheelFitScale s).

Definition setIsPanning (v : bool) (s : Viewer) : Viewer :=
  mkViewer (numPages s) (pageNumber s) (scale s) (fitScale s) (error s)
    (isLoading s) v (isFocused s) (startPanRef s) (panOffsetRef s)
    (lastTransformRef s) (activeMode s) (viewerTransform s) (wheelFitScale s).

Definition setIsFocused (v : bool) (s : Viewer) : Viewer :=
  mkViewer (numPages s) (pageNumber s) (scale s) (fitScale s) (error s)
    (isLoading s) (isPanning s) v (startPanRef s) (panOffsetRef s)
    (lastTransformRef s) (activeMode s) (viewerTransform s) (wheelFitScale s).

Definition setStartPan (v : Position) (s : Viewer) : Viewer :=
  mkViewer (numPages s) (pageNumber s) (scale s) (fitScale s) (error s)
    (isLoading s) (isPanning s) (isFocused s) v (panOffsetRef s)
    (lastTransformRef s) (activeMode s) (viewerTransform s) (wheelFitScale s).

Definition setPanOffset (v : Position) (s : Viewer) : Viewer :=
  mkViewer (numPages s) (pageNumber s) (scale s) (fitScale s) (error s)
    (isLoading s) (isPanning s) (isFocused s) (startPanRef s) v
    (lastTransformRef s) (activeMode s) (viewerTransform s) (wheelFitScale s).

Definition setLastTransform (v : Position) (s : Viewer) : Viewer :=
  mkViewer (numPages s) (pageNumber s) (scale s) (fitScale s) (error s)
    (isLoading s) (isPanning s) (isFocused s) (startPanRef s) (panOffsetRef s)
    v (activeMode s) (viewerTransform s) (wheelFitScale s).

Definition setActiveMode (v : string) (s : Viewer) : Viewer :=
  mkViewer (numPages s) (pageNumber s) (scale s) (fitScale s) (error s)
    (isLoading s) (isPanning s) (isFocused s) (startPanRef s) (panOffsetRef s)
    (lastTransformRef s) v (viewerTransform s) (wheelFitScale s).

Definition setViewerTransform (v : option Transform) (s : Viewer) : Viewer :=
  mkViewer (numPages s) (pageNumber s) (scale s) (fitScale s) (error s)
    (isLoading s) (isPanning s) (isFocused s) (startPanRef s) (panOffsetRef s)
    (lastTransformRef s) (activeMode s) v (wheelFitScale s).

Definition setWheelFitScale (v : Q) (s : Viewer) : Viewer :=
  mkViewer (numPages s) (pageNumber s) (scale s) (fitScale s) (error s)
    (isLoading s) (isPanning s) (isFocused s) (startPanRef s) (panOffsetRef s)
    (lastTransformRef s) (activeMode s) (viewerTransform s) v.

(** ** Transform applier: [updateTransform] *)

Definition num (n : N) : Q := inject_Z (Z.of_N n).

(** [updateTransform(newScale, zoomOrigin?)].  Nothing happens unless the
    three refs are set.  With a [zoomOrigin] the pan offset is first moved
    by the change of the viewer's unscaled extent, weighted by the origin's
    relative position in the container; [scale] is the scale of the render
    the caller belongs to. *)
Definition updateTransform (d : Dom) (newScale : Q) (zoomOrigin : option Position)
    (s : Viewer) : Viewer :=
  match viewerRef d, containerRef d, pageRef d with
  | Some viewer, Some c, Some _ =>
      let s1 :=
        match zoomOrigin with
        | Some o =>
            let container := containerRect c in
            let relativeX := (x o - left container) / width container in
            let relativeY := (y o - top container) / height container in
            let oldWidth := width viewer / scale s in
            let newWidth := width viewer / newScale in
            let oldHeight := height viewer / scale s in
            let newHeight := height viewer / newScale in
            setPanOffset
              {| x := x (panOffsetRef s) + (newWidth - oldWidth) * relativeX;
                 y := y (panOffsetRef s) + (newHeight - oldHeight) * relativeY |}
              s
        | None => s
        end in
      setViewerTransform
        (Some (mkTransform (x (panOffsetRef s1)) (y (panOffsetRef s1)) newScale))
        s1
  | _, _, _ => s
  end.

(** ** Fit calculator: [calculateFitScale] *)

Section Fit.
Variable padding : Q.
Variables (c : ContainerEl) (p : PageEl).

Definition scaleWidth : Q := (num (clientWidth c) - padding * 2) / num (scrollWidth p).
Definition scaleHeight : Q := (num (clientHeight c) - padding * 2) / num (scrollHeight p).

(** [newFitScale], in exact arithmetic. *)
Definition newFitScale : Q := Qmin scaleWidth scaleHeight.

(** [{ x: xOffset, y: yOffset }] *)
Definition fitOffset : Position :=
  let scaledWidth := num (scrollWidth p) * newFitScale in
  let scaledHeight := num (scrollHeight p) * newFitScale in
  {| x := (num (clientWidth c) - scaledWidth) / 2;
     y := (num (clientHeight c) - scaledHeight) / 2 |}.
End Fit.

Definition calculateFitScale (d : Dom) (s : Viewer) : Viewer :=
  match containerRef d, pageRef d with
  | Some c, Some p =>
      if negb (isLoading s) then
        let f := newFitScale PADDING c p in
        let off := fitOffset PADDING c p in
        (* setState calls take effect for the next render; [updateTransform]
           is called without an origin and so does not read [scale] *)
        updateTransform d f None
          (setLastTransform off (setPanOffset off (setScale f (setFitScale f s))))
      else s
  | _, _ => s
  end.

(** ** The fit calculator in double precision

    The numbers of [calculateFitScale] as JavaScript computes them: IEEE 754
    binary64 with every operation rounded to nearest, which is the
    arithmetic of [PrimFloat]. *)

Module Double.

Import PrimFloat.

(** An element extent as a [number]; exact below 2^53. *)
Definition num (n : N) : float := of_uint63 (Uint63.of_Z (Z.of_N n)).

(** [Math.min] of two numbers: NaN if either is NaN, and -0 below +0. *)
Definition Math_min (a b : float) : float :=
  if is_nan a || is_nan b then nan
  else if ltb a b then a
  else if ltb b a then b
  else if get_sign a then a else b.

Definition PADDING : float := 20%float.

Section Fit.
Variable padding : float.
Variables (c : ContainerEl) (p : PageEl).

Definition scaleWidth : float :=
  div (sub (num (clientWidth c)) (mul padding 2%float)) (num (scrollWidth p)).
Definition scaleHeight : float :=
  div (sub (num (clientHeight c)) (mul padding 2%float)) (num (scrollHeight p)).

Definition newFitScale : float := Math_min scaleWidth scaleHeight.

Definition scaledWidth : float := mul (num (scrollWidth p)) newFitScale.
Definition scaledHeight : float := mul (num (scrollHeight p)) newFitScale.

Definition xOffset : float := div (sub (num (clientWidth c)) scaledWidth) 2%float.
Definition yOffset : float := div (sub (num (clientHeight c)) scaledHeight) 2%float.

End Fit.

End Double.

(** ** Open/close lifecycle and load effects *)

(** [useEffect(..., [isOpen])]: runs when the [isOpen] prop changes (and on
    mount) and resets the component when the viewer is closed. *)
Definition isOpenEffect (isOpen : bool) (s : Viewer) : Viewer :=
  if negb isOpen then
    setLastTransform origin
      (setPanOffset origin
        (setIsLoading true
          (setError None
            (setFitScale 1 (setScale 1 (setPageNumber 1 (setNumPages 0 s)))))))
  else s.

(** [useEffect(..., [isLoading])]: fit once loading has completed. *)
Definition isLoadingEffect (d : Dom) (s : Viewer) : Viewer :=
  if negb (isLoading s) then calculateFitScale d s else s.

(** The [ResizeObserver] callback. *)
Definition onResize (d : Dom) (s : Viewer) : Viewer :=
  if negb (isLoading s) then calculateFitScale d s else s.

(** [Document] [onLoadSuccess] and [onLoadError], [Page] [onLoadSuccess]. *)
Definition documentLoadSuccess (n : Z) (s : Viewer) : Viewer :=
  setError None (setNumPages n s).

Definition documentLoadError (message : string) (s : Viewer) : Viewer :=
  setIsLoading false
    (setError (Some ("Failed to load document: " ++ message)%string) s).

Definition pageLoadSuccess (s : Viewer) : Viewer := setIsLoading false s.

(** ** Interaction controller *)

(** DOM [MouseEvent]; a [WheelEvent] extends it with [deltaY]. *)
Record MouseEvent : Type := mkMouse {
  button : Z;
  clientX : Q;
  clientY : Q;
  ctrlKey : bool;
  metaKey : bool
}.

Record WheelEvent : Type := mkWheel { mouse : MouseEvent; deltaY : Q }.

Definition Qltb (a b : Q) : bool :=
  match a ?= b with Lt => true | _ => false end.

Definition zoomFactor : Q := 11 # 10.

(** Pointer position in container pixels, as [handleWheel] computes it. *)
Definition cursorPixel (c : ContainerEl) (e : WheelEvent) : Position :=
  {| x := clientX (mouse e) - left (containerRect c);
     y := clientY (mouse e) - top (containerRect c) |}.

(** [newScale] of [handleWheel]; its [fitScale] is the one of the render
    the listener was registered in. *)
Definition wheelScale (e : WheelEvent) (s : Viewer) : Q :=
  let delta := - deltaY e in
  if Qltb 0 delta
  then Qmin 5 (scale s * zoomFactor)
  else Qmax (wheelFitScale s * (5 # 10)) (scale s / zoomFactor).

(** The attached wheel listener.  Where no listener is attached to the
    container (it was not mounted when the effect last ran) a wheel event
    does nothing at all. *)
Definition handleWheel (d : Dom) (e : WheelEvent) (s : Viewer) : Viewer :=
  if (ctrlKey (mouse e) || metaKey (mouse e)) && isFocused s then
    match containerRef d, viewerRef d with
    | Some container, Some _ =>
        let mouseX := x (cursorPixel container e) in
        let mouseY := y (cursorPixel container e) in
        let pointXBeforeZoom := (mouseX - x (panOffsetRef s)) / scale s in
        let pointYBeforeZoom := (mouseY - y (panOffsetRef s)) / scale s in
        let newScale := wheelScale e s in
        let pointXAfterZoom := pointXBeforeZoom * newScale in
        let pointYAfterZoom := pointYBeforeZoom * newScale in
        let s1 :=
          setPanOffset
            {| x := mouseX - pointXAfterZoom; y := mouseY - pointYAfterZoom |} s in
        setScale newScale (updateTransform d newScale None s1)
    | _, _ => s
    end
  else s.

Definition handleMouseDown (e : MouseEvent) (s : Viewer) : Viewer :=
  if (button e =? 0)%Z then
    setLastTransform (panOffsetRef s)
      (setStartPan {| x := clientX e; y := clientY e |} (setIsPanning true s))
  else s.

Definition handleMouseMove (d : Dom) (e : MouseEvent) (s : Viewer) : Viewer :=
  if isPanning s then
    let deltaX := clientX e - x (startPanRef s) in
    let deltaY := clientY e - y (startPanRef s) in
    updateTransform d (scale s) None
      (setPanOffset
         {| x := x (lastTransformRef s) + deltaX;
            y := y (lastTransformRef s) + deltaY |} s)
  else s.

Definition handleMouseUp (s : Viewer) : Viewer := setIsPanning false s.

Definition handleResetView (d : Dom) (s : Viewer) : Viewer :=
  setScale (fitScale s)
    (updateTransform d (fitScale s) None
       (setLastTransform origin (setPanOffset origin s))).

(** Centre of the container's bounding box, in client coordinates. *)
Definition containerCenter (c : ContainerEl) : Position :=
  let rect := containerRect c in
  {| x := left rect + width rect / 2; y := top rect + height rect / 2 |}.

Definition handleZoomIn (d : Dom) (s : Viewer) : Viewer :=
  match containerRef d with
  | Some c =>
      let newScale := Qmin 5 (scale s * (11 # 10)) in
      setScale newScale (updateTransform d newScale (Some (containerCenter c)) s)
  | None => s
  end.

Definition handleZoomOut (d : Dom) (s : Viewer) : Viewer :=
  match containerRef d with
  | Some c =>
      let newScale := Qmax (fitScale s * (5 # 10)) (scale s / (11 # 10)) in
      setScale newScale (updateTransform d newScale (Some (containerCenter c)) s)
  | None => s
  end.

(** *** Toolbar buttons

    A [Button] whose [disabled] prop is true does not run its [onClick]. *)
Definition click (disabled : bool) (onClick : Viewer -> Viewer) (s : Viewer) : Viewer :=
  if disabled then s else onClick s.

Definition clickPrevious (s : Viewer) : Viewer :=
  click (pageNumber s <=? 1)%Z
    (fun s0 => setPageNumber (Z.max 1 (pageNumber s0 - 1)) s0) s.

Definition clickNext (s : Viewer) : Viewer :=
  click (pageNumber s >=? numPages s)%Z
    (fun s0 => setPageNumber (Z.min (numPages s0) (pageNumber s0 + 1)) s0) s.

Definition clickZoomOut (d : Dom) (s : Viewer) : Viewer :=
  click (Qle_bool (scale s) (fitScale s * MIN_SCALE_FACTOR)) (handleZoomOut d) s.

Definition clickZoomIn (d : Dom) (s : Viewer) : Viewer :=
  click (Qle_bool MAX_SCALE (scale s)) (handleZoomIn d) s.

Definition clickResetView (d : Dom) (s : Viewer) : Viewer :=
  click false (handleResetView d) s.

(** *** Event props of the container [div]

    The JSX attributes in source order.  [onMouseLeave] is written twice;
    the props object keeps the binding written last. *)
Definition MouseHandler : Type := Dom -> MouseEvent -> Viewer -> Viewer.

Definition containerAttributes : list (string * MouseHandler) :=
  [ ("onMouseDown"%string, fun _ e => handleMouseDown e);
    ("onMouseMove"%string, handleMouseMove);
    ("onMouseUp"%string, fun _ _ => handleMouseUp);
    ("onMouseLeave"%string, fun _ _ => handleMouseUp);
    ("onMouseEnter"%string, fun _ _ => setIsFocused true);
    ("onMouseLeave"%string, fun _ _ => setIsFocused false) ].

(** Reading a key of the object built from an attribute list: each
    attribute assigns its key, so a later one replaces an earlier one. *)
Definition getProp {A : Type} (name : string) (attrs : list (string * A)) : option A :=
  fold_left (fun acc kv => if String.eqb (fst kv) name then Some (snd kv) else acc)
            attrs None.

(** Delivering a mouse event of the container to the handler bound to it. *)
Definition fire (name : string) (d : Dom) (e : MouseEvent) (s : Viewer) : Viewer :=
  match getProp name containerAttributes with
  | Some h => h d e s
  | None => s
  end.

(** *** The component as a transition system *)

Inductive Event : Type :=
| IsOpenChanged (isOpen : bool)
| DocumentLoaded (n : Z)
| DocumentFailed (message : string)
| PageLoaded
| Resized
| Wheel (e : WheelEvent)
| MouseDown (e : MouseEvent)
| MouseMove (e : MouseEvent)
| MouseUp (e : MouseEvent)
| MouseEnter (e : MouseEvent)
| MouseLeave (e : MouseEvent)
| ClickPrevious
| ClickNext
| ClickZoomIn
| ClickZoomOut
| ClickResetView
| ModeChanged (value : string).

Definition handle (d : Dom) (ev : Event) (s : Viewer) : Viewer :=
  match ev with
  | IsOpenChanged isOpen => isOpenEffect isOpen s
  | DocumentLoaded n => documentLoadSuccess n s
  | DocumentFailed m => documentLoadError m s
  | PageLoaded => pageLoadSuccess s
  | Resized => onResize d s
  | Wheel e => handleWheel d e s
  | MouseDown e => fire "onMouseDown" d e s
  | MouseMove e => fire "onMouseMove" d e s
  | MouseUp e => fire "onMouseUp" d e s
  | MouseEnter e => fire "onMouseEnter" d e s
  | MouseLeave e => fire "onMouseLeave" d e s
  | ClickPrevious => clickPrevious s
  | ClickNext => clickNext s
  | ClickZoomIn => clickZoomIn d s
  | ClickZoomOut => clickZoomOut d s
  | ClickResetView => clickResetView d s
  | ModeChanged v => setActiveMode v s
  end.

(** [useEffect(..., [isFocused, scale])]: after a render in which
    [isFocused] or [scale] differs from the render before, the wheel
    listener is replaced by the [handleWheel] of the new render, whose
    closure holds the new render's [fitScale]. *)
Definition registerWheel (before after : Viewer) : Viewer :=
  if Bool.eqb (isFocused before) (isFocused after)
     && Qeq_bool (scale before) (scale after)
  then after
  else setWheelFitScale (fitScale after) after.

(** One event: its handler and the render it causes, with the effects of
    that render; when the handler changed [isLoading], the [isLoading]
    effect fits and causes a second render. *)
Definition step (d : Dom) (ev : Event) (s : Viewer) : Viewer :=
  let s' := registerWheel s (handle d ev s) in
  if Bool.eqb (isLoading s) (isLoading s') then s'
  else registerWheel s' (isLoadingEffect d s').

Fixpoint run (evs : list (Dom * Event)) (s : Viewer) : Viewer :=
  match evs with
  | [] => s
  | (d, ev) :: rest => run rest (step d ev s)
  end.

(** A page element, when there is one, has been rendered and has a
    non-zero size. *)
Definition measured (d : Dom) : Prop :=
  match pageRef d with
  | Some p => scrollWidth p <> 0%N /\ scrollHeight p <> 0%N
  | None => True
  end.

(** The states an instance can be in: those some event sequence produces
    from the initial one. *)
Definition reachable (s : Viewer) : Prop :=
  exists evs,
    Forall (fun de => measured (fst de)) evs /\ run evs initialViewer = s.

(** ** Relay endpoint: [GET] of [route.js] *)

Module Relay.

Definition dquote : string := String (ascii_of_nat 34) EmptyString.

Inductive Body : Type :=
| Text (t : string)
| Buffer (bytes : list Byte.byte).

(** A [NextResponse]: the status, the headers the handler passes, the body. *)
Record NextResponse : Type := mkResponse {
  status : Z;
  headers : list (string * string);
  body : Body
}.

(** What the handler reads of the upstream [Response]:
    [status], [headers.get("content-type")] and [arrayBuffer()], which is
    [None] when reading the body rejects. *)
Record UpstreamResponse : Type := mkUpstream {
  upstreamStatus : Z;
  contentType : option string;
  arrayBuffer : option (list Byte.byte)
}.

(** [fetch]: [None] when the promise rejects (network failure, bad URL). *)
Definition Fetch : Type := string -> option UpstreamResponse.

Record Request : Type := mkRequest { searchParams : list (string * string) }.

(** [URLSearchParams.get]: the first value of the name, or [null]. *)
Fixpoint get (name : string) (params : list (string * string)) : option string :=
  match params with
  | [] => None
  | (k, v) :: rest => if String.eqb k name then Some v else get name rest
  end.

(** What the [try] block can throw. *)
Inductive Exn : Type :=
| FetchRejected
| HttpError (upstream : Z)       (* `HTTP error! status: ${response.status}` *)
| BodyRejected.

Inductive LogEntry : Type :=
| Warn (message : string) (contentType : option string)
| Error (message : string) (e : Exn).

(** Computations that log to the console and may throw. *)
Inductive Outcome (A : Type) : Type :=
| Return (a : A)
| Throw (e : Exn).
Arguments Return {A} a.
Arguments Throw {A} e.

Definition M (A : Type) : Type := (Outcome A * list LogEntry)%type.

Definition ret {A : Type} (a : A) : M A := (Return a, []).
Definition throw {A : Type} (e : Exn) : M A := (Throw e, []).
Definition log (l : LogEntry) : M unit := (Return tt, [l]).

Definition bind {A B : Type} (m : M A) (k : A -> M B) : M B :=
  match m with
  | (Return a, l1) => let (r, l2) := k a in (r, l1 ++ l2)
  | (Throw e, l1) => (Throw e, l1)
  end.

Notation "v <- m ;; k" := (bind m (fun v => k))
  (at level 61, m at next level, right associativity).
Notation "m ;;; k" := (bind m (fun _ => k))
  (at level 61, right associativity).

Definition await {A : Type} (e : Exn) (promise : option A) : M A :=
  match promise with
  | Some a => ret a
  | None => throw e
  end.

(** [response.ok] *)
Definition ok (r : UpstreamResponse) : bool :=
  ((200 <=? upstreamStatus r) && (upstreamStatus r <=? 299))%Z.

(** [String.prototype.includes] *)
Fixpoint includes (needle hay : string) : bool :=
  prefix needle hay ||
  match hay with
  | EmptyString => false
  | String _ rest => includes needle rest
  end.

(** [!contentType || !contentType.includes("application/pdf")] *)
Definition notPdf (ct : option string) : bool :=
  match ct with
  | None => true
  | Some t => (t =? "")%string || negb (includes "application/pdf" t)
  end.

(** [JSON.stringify] of an object whose values are plain strings. *)
Definition stringifyField (kv : string * string) : string :=
  (dquote ++ fst kv ++ dquote ++ ":" ++ dquote ++ snd kv ++ dquote)%string.

Definition JSON_stringify (fields : list (string * string)) : string :=
  ("{" ++ String.concat "," (map stringifyField fields) ++ "}")%string.

Definition pdfHeaders : list (string * string) :=
  [ ("Content-Type", "application/pdf");
    ("Content-Disposition", "inline; filename=" ++ dquote ++ "document.pdf" ++ dquote);
    ("Cache-Control", "public, max-age=3600") ]%string.

Definition missingUrl : NextResponse :=
  {| status := 400; headers := []; body := Text "Missing URL parameter" |}.

Definition fetchFailed : NextResponse :=
  {| status := 500;
     headers := [("Content-Type", "application/json")]%string;
     body := Text (JSON_stringify [("error", "Failed to fetch PDF")]%string) |}.

(** The body of the [try] block. *)
Definition tryFetch (fetch : Fetch) (url : string) : M NextResponse :=
  response <- await FetchRejected (fetch url) ;;
  (if negb (ok response) then throw (HttpError (upstreamStatus response)) else ret tt) ;;;
  (if notPdf (contentType response)
   then log (Warn "Response is not a PDF:" (contentType response))
   else ret tt) ;;;
  pdfBuffer <- await BodyRejected (arrayBuffer response) ;;
  ret {| status := 200; headers := pdfHeaders; body := Buffer pdfBuffer |}.

Definition GET (fetch : Fetch) (request : Request) : NextResponse * list LogEntry :=
  let url := get "url" (searchParams request) in
  match url with
  | Some u =>
      if (u =? "")%string then (missingUrl, [])      (* [!url] *)
      else
        match tryFetch fetch u with
        | (Return r, logs) => (r, logs)
        | (Throw e, logs) => (fetchFailed, logs ++ [Error "Error fetching PDF:" e])
        end
  | None => (missingUrl, [])
  end.

End Relay.

(** ** Notions the properties are stated with *)

(** Where the transform [translate(pan) scale(s)] (origin top-left) puts a
    point of the viewer element's own coordinate space, in container
    pixels.  The page is centred inside that element by its flex layout, so
    a point of the page has these coordinates only up to that centring
    offset. *)
Definition toScreen (s : Viewer) (p : Position) : Position :=
  {| x := x p * scale s + x (panOffsetRef s);
     y := y p * scale s + y (panOffsetRef s) |}.

(** The point [handleWheel] finds under a container pixel ([worldX],
    [worldY]), in the viewer element's coordinate space. *)
Definition toWorld (s : Viewer) (px : Position) : Position :=
  {| x := (x px - x (panOffsetRef s)) / scale s;
     y := (y px - y (panOffsetRef s)) / scale s |}.

(** [ViewportState] of the specification. *)
Definition viewportState (s : Viewer) : Q * Q * Position :=
  (scale s, fitScale s, panOffsetRef s).

(** The zoom operations: wheel (in or out by the sign of [deltaY]) and the
    two toolbar buttons. *)
Inductive ZoomOp : Type :=
| WheelZoom (e : WheelEvent)
| ButtonZoomIn
| ButtonZoomOut.

Definition zoomEvent (op : ZoomOp) : Event :=
  match op with
  | WheelZoom e => Wheel e
  | ButtonZoomIn => ClickZoomIn
  | ButtonZoomOut => ClickZoomOut
  end.

(** One zoom operation: its event, with the render and the effects it
    causes. *)
Definition zoom (d : Dom) (op : ZoomOp) (s : Viewer) : Viewer :=
  step d (zoomEvent op) s.

(** The states after each operation of a sequence. *)
Fixpoint zoomTrace (ops : list (Dom * ZoomOp)) (s : Viewer) : list Viewer :=
  match ops with
  | [] => []
  | (d, op) :: rest => zoom d op s :: zoomTrace rest (zoom d op s)
  end.

Definition inZoomBounds (s : Viewer) : Prop :=
  fitScale s * (5 # 10) <= scale s /\ scale s <= 5.

Definition fitWithin (s : Viewer) : Prop :=
  0 <= fitScale s /\ fitScale s <= 5.

(** The states reached from the initial one by events on measured pages
    after each of which the fit scale lies in [[0, 5]]. *)
Inductive reachedWithin : Viewer -> Prop :=
| reached_initial : reachedWithin initialViewer
| reached_step (d : Dom) (ev : Event) (s : Viewer) :
    reachedWithin s -> measured d -> fitWithin (step d ev s) ->
    reachedWithin (step d ev s).

(** How a handler, an effect or a whole step can move the scale and the
    fit scale from [a] to [b]: both stay, or the scale makes one clamped
    zoom step at unchanged fit scale (the floor of a wheel step being the
    listener's), or the scale becomes the, possibly new, fit scale. *)
Definition zoomMove (a b : Viewer) : Prop :=
  fitScale b = fitScale a /\
  (scale b = scale a \/
   scale b = Qmin 5 (scale a * (11 # 10)) \/
   scale b = Qmax (fitScale a * (5 # 10)) (scale a / (11 # 10)) \/
   scale b = Qmax (wheelFitScale a * (5 # 10)) (scale a / (11 # 10))).

Definition fitMove (b : Viewer) : Prop := scale b = fitScale b.

(** The attached wheel listener holds the current fit scale, unless the
    fit scale changed in a render that left the scale where it was. *)
Definition listenerFresh (s : Viewer) : Prop :=
  wheelFitScale s = fitScale s \/ scale s == fitScale s.

(** The floor is kept whenever the fit scale lies in [[0, 5]]. *)
Definition scaleAboveFloor (s : Viewer) : Prop :=
  listenerFresh s /\
  (0 <= fitScale s -> fitScale s <= 5 ->
   0 <= scale s /\ fitScale s * (5 # 10) <= scale s).

(** What the zoom operations maintain while every fit scale lies in
    [[0, 5]]. *)
Definition zoomInvariant (s : Viewer) : Prop :=
  0 <= scale s /\ fitScale s * (5 # 10) <= scale s /\ scale s <= 5 /\
  0 <= wheelFitScale s /\ wheelFitScale s <= 5 /\ listenerFresh s.

(** What holds of the page cursor along every run in which each loaded
    document has at least one page. *)
Definition pageOneWithoutCount (s : Viewer) : Prop :=
  (1 <= pageNumber s)%Z /\ (numPages s = 0%Z -> pageNumber s = 1%Z).

Definition positiveCount (ev : Event) : Prop :=
  match ev with
  | DocumentLoaded n => (1 <= n)%Z
  | _ => True
  end.

(** Sample inputs. *)
Module Sample.

(** A 1600 x 1200 page in an 800 x 600 container. *)
Definition container : ContainerEl := mkContainer 800 600 (mkRect 0 0 800 600).
Definition page : PageEl := mkPage 1600 1200.
Definition dom : Dom :=
  mkDom (Some container) (Some (mkRect 0 0 800 600)) (Some page).

(** A 100 x 100 page in an 840 x 640 container. *)
Definition smallPageDom : Dom :=
  mkDom (Some (mkContainer 840 640 (mkRect 0 0 840 640)))
        (Some (mkRect 0 0 840 640)) (Some (mkPage 100 100)).

Definition pointer (px py : Q) : MouseEvent := mkMouse 0 px py false false.
Definition ctrlWheel (px py dy : Q) : WheelEvent :=
  mkWheel (mkMouse 0 px py true false) dy.

(** The instance once the first page of the small document has rendered. *)
Definition smallPageFitted : Viewer :=
  run [(smallPageDom, DocumentLoaded 1); (smallPageDom, PageLoaded)] initialViewer.

(** The instance once the first page of a 12-page document has rendered. *)
Definition loaded : Viewer :=
  run [(dom, DocumentLoaded 12); (dom, PageLoaded)] initialViewer.

(** ... with the pointer inside the container. *)
Definition focused : Viewer :=
  run [(dom, DocumentLoaded 12); (dom, PageLoaded);
       (dom, MouseEnter (pointer 400 300))] initialViewer.

(** On page 2 while a second document reports no page; on page 4 while a
    second document has two pages. *)
Definition pageTwoOfNone : Viewer :=
  run [ (dom, DocumentLoaded 2); (dom, PageLoaded); (dom, ClickNext);
        (dom, DocumentLoaded 0) ] initialViewer.

Definition pageFourOfTwo : Viewer :=
  run [ (dom, DocumentLoaded 12); (dom, PageLoaded); (dom, ClickNext);
        (dom, ClickNext); (dom, ClickNext); (dom, DocumentLoaded 2) ] initialViewer.

(** A 50 x 50 page in a 640 x 640 container, fitted at scale 12; then the
    pointer enters, one ctrl+wheel tick zooms in to the ceiling 5, and the
    container shrinks to 290 x 290, where the fit scale is 5. *)
Definition tinyPageDom : Dom :=
  mkDom (Some (mkContainer 640 640 (mkRect 0 0 640 640)))
        (Some (mkRect 0 0 640 640)) (Some (mkPage 50 50)).

Definition tinyPageShrunkDom : Dom :=
  mkDom (Some (mkContainer 290 290 (mkRect 0 0 290 290)))
        (Some (mkRect 0 0 290 290)) (Some (mkPage 50 50)).

Definition refitted : Viewer :=
  run [ (tinyPageDom, DocumentLoaded 1); (tinyPageDom, PageLoaded);
        (tinyPageDom, MouseEnter (pointer 300 300));
        (tinyPageDom, Wheel (ctrlWheel 300 300 (-1)));
        (tinyPageShrunkDom, Resized) ] initialViewer.


(** An upstream that serves one PDF with the right content type, the
    same bytes as [text/html] under another address, answers 404 at a
    third address and is unreachable elsewhere. *)
Definition pdfMagic : list Byte.byte := [Byte.x25; Byte.x50; Byte.x44; Byte.x46].
Definition pdfUrl : string := "https://example.org/a.pdf".
Definition htmlUrl : string := "https://example.org/a.html".

Definition upstream : Relay.Fetch :=
  fun url =>
    if (url =? pdfUrl)%string then
      Some (Relay.mkUpstream 200 (Some "application/pdf"%string) (Some pdfMagic))
    else if (url =? htmlUrl)%string then
      Some (Relay.mkUpstream 200 (Some "text/html"%string) (Some pdfMagic))
    else if (url =? "https://example.org/missing.pdf")%string then
      Some (Relay.mkUpstream 404 (Some "text/html"%string) (Some []))
    else None.

Definition requestHtml : Relay.Request := Relay.mkRequest [("url"%string, htmlUrl)].

End Sample.

(** ** What the component renders from its state *)

(** [getCursorStyle] *)
Definition getCursorStyle (s : Viewer) : string :=
  if isPanning s then "grabbing"
  else if (activeMode s =? "drag")%string then "grab"
  else if (activeMode s =? "ruler")%string then "crosshair"
  else if (activeMode s =? "comment")%string then "text"
  else "default".

(** [Math.round]: the nearest integer, a half going up. *)
Definition Math_round (q : Q) : Z := Qfloor (q + (1 # 2)).

(** The zoom readout, [Math.round((scale / fitScale) * 100)] per cent. *)
Definition zoomPercent (s : Viewer) : Z :=
  Math_round (scale s / fitScale s * 100).

(** ** Further notions the properties are stated with *)

(** The guards of [handleWheel]. *)
Definition wheelAccepted (d : Dom) (e : WheelEvent) (s : Viewer) : bool :=
  (ctrlKey (mouse e) || metaKey (mouse e)) && isFocused s &&
  match containerRef d, viewerRef d with
  | Some _, Some _ => true
  | _, _ => false
  end.

(** The three element refs are set. *)
Definition mounted (d : Dom) : Prop :=
  containerRef d <> None /\ viewerRef d <> None /\ pageRef d <> None.

(** The style written on the viewer element is the one the state
    describes. *)
Definition transformSynced (s : Viewer) : Prop :=
  viewerTransform s =
  Some (mkTransform (x (panOffsetRef s)) (y (panOffsetRef s)) (scale s)).

Definition isClose (ev : Event) : bool :=
  match ev with
  | IsOpenChanged false => true
  | _ => false
  end.

(** Pointer, wheel, toolbar and resize events, as opposed to the
    open/close prop and the load callbacks. *)
Definition isInteraction (ev : Event) : bool :=
  match ev with
  | IsOpenChanged _ | DocumentLoaded _ | DocumentFailed _ | PageLoaded => false
  | _ => true
  end.

(** Pointer events that reach the container while no primary button has
    been pressed on it. *)
Definition isIdlePointer (ev : Event) : bool :=
  match ev with
  | MouseMove _ | MouseUp _ => true
  | MouseDown e => negb (button e =? 0)%Z
  | _ => false
  end.

(** [LoadState] of the specification and the page count. *)
Definition loadState (s : Viewer) : option string * bool * Z :=
  (error s, isLoading s, numPages s).

(** ** Fit calculator: properties *)









(** The worked example of the specification: an 800 x 600 container and a
    1600 x 1200 page give a fit scale of 7/15 and the offset (80/3, 20). *)
Example fit_800x600_1600x1200 :
  let s := Sample.loaded in
  fitScale s == 7 # 15 /\ scale s == 7 # 15 /\
  x (panOffsetRef s) == 80 # 3 /\ y (panOffsetRef s) == 20 /\
  isLoading s = false /\ numPages s = 12%Z.
Proof. vm_compute. repeat split; reflexivity. Qed.


(** ** Frame lemmas *)

Lemma Qeq_bool_same (a : Q) : Qeq_bool a a = true.
Proof. apply Qeq_bool_iff. reflexivity. Qed.

(** Registering the wheel listener touches [wheelFitScale] only, and
    nothing when neither [isFocused] nor [scale] changed. *)
Lemma registerWheel_cases (a b : Viewer) :
  (isFocused a = isFocused b /\ scale a == scale b /\ registerWheel a b = b) \/
  ((isFocused a <> isFocused b \/ ~ scale a == scale b) /\
   registerWheel a b = setWheelFitScale (fitScale b) b).
Proof.
  unfold registerWheel.
  destruct (Bool.eqb (isFocused a) (isFocused b)) eqn:Ef.
  - apply Bool.eqb_prop in Ef.
    destruct (Qeq_bool (scale a) (scale b)) eqn:Es; cbn [andb].
    + apply Qeq_bool_iff in Es. left. auto.
    + right. split; [| reflexivity]. right. intros H.
      apply Qeq_bool_iff in H. congruence.
  - right. split; [| reflexivity]. left. intros H. rewrite H in Ef.
    now rewrite Bool.eqb_reflx in Ef.
Qed.

Lemma registerWheel_unchanged (a b : Viewer) :
  isFocused a = isFocused b -> scale a = scale b -> registerWheel a b = b.
Proof.
  intros Ef Es. unfold registerWheel.
  now rewrite Ef, Es, Bool.eqb_reflx, Qeq_bool_same.
Qed.

Lemma setWheelFitScale_same (s : Viewer) : setWheelFitScale (wheelFitScale s) s = s.
Proof. destruct s; reflexivity. Qed.

Lemma calculateFitScale_wheelFitScale (d : Dom) (s : Viewer) :
  wheelFitScale (calculateFitScale d s) = wheelFitScale s.
Proof.
  unfold calculateFitScale, updateTransform.
  destruct (negb (isLoading s)), (containerRef d), (pageRef d), (viewerRef d);
    reflexivity.
Qed.

(** No handler touches the listener's closure. *)
Lemma handle_wheelFitScale (d : Dom) (ev : Event) (s : Viewer) :
  wheelFitScale (handle d ev s) = wheelFitScale s.
Proof.
  destruct ev; cbn [handle]; try reflexivity.
  - destruct isOpen; reflexivity.
  - unfold onResize. destruct (negb (isLoading s)); [| reflexivity].
    apply calculateFitScale_wheelFitScale.
  - unfold handleWheel, updateTransform.
    destruct ((ctrlKey (mouse e) || metaKey (mouse e)) && isFocused s),
      (containerRef d), (viewerRef d), (pageRef d); reflexivity.
  - cbn. unfold handleMouseDown. destruct (button e =? 0)%Z; reflexivity.
  - cbn. unfold handleMouseMove, updateTransform.
    destruct (isPanning s), (viewerRef d), (containerRef d), (pageRef d); reflexivity.
  - unfold clickPrevious, click. destruct (pageNumber s <=? 1)%Z; reflexivity.
  - unfold clickNext, click. destruct (pageNumber s >=? numPages s)%Z; reflexivity.
  - unfold clickZoomIn, click, handleZoomIn, updateTransform.
    destruct (Qle_bool MAX_SCALE (scale s)), (containerRef d), (viewerRef d),
      (pageRef d); reflexivity.
  - unfold clickZoomOut, click, handleZoomOut, updateTransform.
    destruct (Qle_bool (scale s) (fitScale s * MIN_SCALE_FACTOR)), (containerRef d),
      (viewerRef d), (pageRef d); reflexivity.
  - unfold clickResetView, click, handleResetView, updateTransform.
    destruct (viewerRef d), (containerRef d), (pageRef d); reflexivity.
Qed.

(** A step is its handler, the [isLoading] effect if the handler changed
    [isLoading], and then a new [wheelFitScale] at most. *)
Lemma step_cases (d : Dom) (ev : Event) (s : Viewer) :
  let h := handle d ev s in
  let t := if Bool.eqb (isLoading s) (isLoading h) then h else isLoadingEffect d h in
  exists f, step d ev s = setWheelFitScale f t /\
            (f = wheelFitScale s \/ f = fitScale h \/ f = fitScale t).
Proof.
  cbv zeta. unfold step.
  assert (L : forall a b, isLoading (registerWheel a b) = isLoading b).
  { intros a b. destruct (registerWheel_cases a b) as [(_ & _ & E) | (_ & E)];
      rewrite E; reflexivity. }
  assert (W : forall dd f t,
             isLoadingEffect dd (setWheelFitScale f t) =
             setWheelFitScale f (isLoadingEffect dd t)).
  { intros dd f t. unfold isLoadingEffect, calculateFitScale, updateTransform.
    cbn [isLoading setWheelFitScale].
    destruct (negb (isLoading t)), (containerRef dd), (pageRef dd), (viewerRef dd);
      reflexivity. }
  pose proof (handle_wheelFitScale d ev s) as H0.
  rewrite L. set (h := handle d ev s) in *.
  destruct (Bool.eqb (isLoading s) (isLoading h)).
  - destruct (registerWheel_cases s h) as [(_ & _ & E) | (_ & E)]; rewrite E.
    + exists (wheelFitScale s). rewrite <- H0, setWheelFitScale_same. auto.
    + exists (fitScale h). auto.
  - destruct (registerWheel_cases s h) as [(_ & _ & E) | (_ & E)]; rewrite E.
    + destruct (registerWheel_cases h (isLoadingEffect d h)) as [(_ & _ & E') | (_ & E')];
        rewrite E'.
      * exists (wheelFitScale s). split; [| auto].
        assert (Hw : wheelFitScale (isLoadingEffect d h) = wheelFitScale h).
        { unfold isLoadingEffect, calculateFitScale, updateTransform.
          destruct (negb (isLoading h)), (containerRef d), (pageRef d), (viewerRef d);
            reflexivity. }
        rewrite <- H0, <- Hw. now rewrite setWheelFitScale_same.
      * exists (fitScale (isLoadingEffect d h)). auto.
    + rewrite W.
      destruct (registerWheel_cases (setWheelFitScale (fitScale h) h)
                  (setWheelFitScale (fitScale h) (isLoadingEffect d h)))
        as [(_ & _ & E') | (_ & E')]; rewrite E'.
      * exists (fitScale h). auto.
      * exists (fitScale (isLoadingEffect d h)). split; [reflexivity | auto].
Qed.

Lemma updateTransform_plain_panOffset (d : Dom) (k : Q) (s : Viewer) :
  panOffsetRef (updateTransform d k None s) = panOffsetRef s.
Proof.
  unfold updateTransform.
  destruct (viewerRef d), (containerRef d), (pageRef d); reflexivity.
Qed.

Lemma updateTransform_scale (d : Dom) (k : Q) (o : option Position) (s : Viewer) :
  scale (updateTransform d k o s) = scale s.
Proof.
  unfold updateTransform.
  destruct (viewerRef d), (containerRef d), (pageRef d), o; reflexivity.
Qed.

Lemma updateTransform_fitScale (d : Dom) (k : Q) (o : option Position) (s : Viewer) :
  fitScale (updateTransform d k o s) = fitScale s.
Proof.
  unfold updateTransform.
  destruct (viewerRef d), (containerRef d), (pageRef d), o; reflexivity.
Qed.

(** The page buttons change the page number only. *)
Lemma clickPrevious_frame (s : Viewer) :
  clickPrevious s = setPageNumber (pageNumber (clickPrevious s)) s.
Proof.
  unfold clickPrevious, click. destruct (pageNumber s <=? 1)%Z; [| reflexivity].
  destruct s; reflexivity.
Qed.

Lemma clickNext_frame (s : Viewer) :
  clickNext s = setPageNumber (pageNumber (clickNext s)) s.
Proof.
  unfold clickNext, click. destruct (pageNumber s >=? numPages s)%Z; [| reflexivity].
  destruct s; reflexivity.
Qed.

Lemma clickPrevious_pageNumber (s : Viewer) :
  pageNumber (clickPrevious s) =
  if (pageNumber s <=? 1)%Z then pageNumber s else Z.max 1 (pageNumber s - 1).
Proof.
  unfold clickPrevious, click. destruct (pageNumber s <=? 1)%Z; reflexivity.
Qed.

Lemma clickNext_pageNumber (s : Viewer) :
  pageNumber (clickNext s) =
  if (pageNumber s >=? numPages s)%Z then pageNumber s
  else Z.min (numPages s) (pageNumber s + 1).
Proof.
  unfold clickNext, click. destruct (pageNumber s >=? numPages s)%Z; reflexivity.
Qed.

(** An event whose handler leaves [isFocused], [scale] and [isLoading]
    alone causes no effect to run. *)
Lemma step_quiet (d : Dom) (ev : Event) (s : Viewer) :
  isFocused (handle d ev s) = isFocused s ->
  scale (handle d ev s) = scale s ->
  isLoading (handle d ev s) = isLoading s ->
  step d ev s = handle d ev s.
Proof.
  intros Ef Es El. unfold step.
  rewrite registerWheel_unchanged by (symmetry; assumption).
  now rewrite El, Bool.eqb_reflx.
Qed.

(** *** The page cursor along a run

    As long as every loaded document reports at least one page, the page
    number is at least 1, and is 1 while the page count is 0. *)

Ltac case_guards :=
  repeat match goal with
         | |- context [match ?t with _ => _ end] => destruct t
         end.

Lemma updateTransform_pages (d : Dom) (k : Q) (o : option Position) (s : Viewer) :
  pageNumber (updateTransform d k o s) = pageNumber s /\
  numPages (updateTransform d k o s) = numPages s.
Proof.
  unfold updateTransform. case_guards; split; reflexivity.
Qed.

Ltac pages_through_update :=
  match goal with
  | |- context [updateTransform ?d ?k ?o ?t] =>
      let Ep := fresh "Ep" in
      let En := fresh "En" in
      destruct (updateTransform_pages d k o t) as [Ep En]; rewrite Ep, En
  end;
  split; reflexivity.

Lemma calculateFitScale_pages (d : Dom) (s : Viewer) :
  pageNumber (calculateFitScale d s) = pageNumber s /\
  numPages (calculateFitScale d s) = numPages s.
Proof.
  unfold calculateFitScale.
  destruct (containerRef d), (pageRef d), (negb (isLoading s));
    try (split; reflexivity).
  pages_through_update.
Qed.

Lemma handle_pages (d : Dom) (ev : Event) (s : Viewer) :
  match ev with
  | IsOpenChanged false =>
      pageNumber (handle d ev s) = 1%Z /\ numPages (handle d ev s) = 0%Z
  | DocumentLoaded n =>
      pageNumber (handle d ev s) = pageNumber s /\ numPages (handle d ev s) = n
  | ClickPrevious =>
      handle d ev s = clickPrevious s
  | ClickNext =>
      handle d ev s = clickNext s
  | _ =>
      pageNumber (handle d ev s) = pageNumber s /\
      numPages (handle d ev s) = numPages s
  end.
Proof.
  destruct ev as [isOpen | n | m | | | e | e | e | e | e | e | | | | | | v];
    cbn [handle]; try (split; reflexivity); try reflexivity.
  - destruct isOpen; split; reflexivity.
  - unfold onResize. destruct (negb (isLoading s)); [| split; reflexivity].
    apply calculateFitScale_pages.
  - unfold handleWheel.
    destruct ((ctrlKey (mouse e) || metaKey (mouse e)) && isFocused s),
      (containerRef d), (viewerRef d); try (split; reflexivity).
    change (pageNumber (setScale ?a ?b)) with (pageNumber b).
    change (numPages (setScale ?a ?b)) with (numPages b).
    pages_through_update.
  - cbn. unfold handleMouseDown. destruct (button e =? 0)%Z; split; reflexivity.
  - cbn. unfold handleMouseMove. destruct (isPanning s); [| split; reflexivity].
    pages_through_update.
  - unfold clickZoomIn, click, handleZoomIn.
    destruct (Qle_bool MAX_SCALE (scale s)), (containerRef d);
      try (split; reflexivity).
    change (pageNumber (setScale ?a ?b)) with (pageNumber b).
    change (numPages (setScale ?a ?b)) with (numPages b).
    pages_through_update.
  - unfold clickZoomOut, click, handleZoomOut.
    destruct (Qle_bool (scale s) (fitScale s * MIN_SCALE_FACTOR)), (containerRef d);
      try (split; reflexivity).
    change (pageNumber (setScale ?a ?b)) with (pageNumber b).
    change (numPages (setScale ?a ?b)) with (numPages b).
    pages_through_update.
  - unfold clickResetView, click, handleResetView.
    change (pageNumber (setScale ?a ?b)) with (pageNumber b).
    change (numPages (setScale ?a ?b)) with (numPages b).
    pages_through_update.
Qed.

Lemma step_pages (d : Dom) (ev : Event) (s : Viewer) :
  pageNumber (step d ev s) = pageNumber (handle d ev s) /\
  numPages (step d ev s) = numPages (handle d ev s).
Proof.
  destruct (step_cases d ev s) as (f & E & _). rewrite E.
  cbn [pageNumber numPages setWheelFitScale]. unfold isLoadingEffect.
  destruct (Bool.eqb (isLoading s) (isLoading (handle d ev s))); [split; reflexivity |].
  destruct (negb (isLoading (handle d ev s))); [| split; reflexivity].
  apply calculateFitScale_pages.
Qed.

Lemma step_pageOneWithoutCount (d : Dom) (ev : Event) (s : Viewer) :
  positiveCount ev -> pageOneWithoutCount s -> pageOneWithoutCount (step d ev s).
Proof.
  unfold pageOneWithoutCount. intros Hev [H1 H0].
  destruct (step_pages d ev s) as [Ep En]. rewrite Ep, En.
  pose proof (handle_pages d ev s) as H.
  destruct ev as [[|] | n | m | | | e | e | e | e | e | e | | | | | | v];
    try (lazymatch type of H with
         | _ /\ _ =>
             destruct H as [Hp Hn]; rewrite Hp, Hn; cbn in Hev; split; [lia | intros; lia]
         end).
  - rewrite H, clickPrevious_pageNumber.
    replace (numPages (clickPrevious s)) with (numPages s)
      by (rewrite clickPrevious_frame; reflexivity).
    destruct (Z.leb_spec (pageNumber s) 1); split; intros; lia.
  - rewrite H, clickNext_pageNumber.
    replace (numPages (clickNext s)) with (numPages s)
      by (rewrite clickNext_frame; reflexivity).
    destruct (pageNumber s >=? numPages s)%Z eqn:E; rewrite Z.geb_leb in E;
      [apply Z.leb_le in E | apply Z.leb_gt in E]; split; intros; lia.
Qed.

Lemma reachable_pageOneWithoutCount (evs : list (Dom * Event)) :
  Forall (fun de => positiveCount (snd de)) evs ->
  pageOneWithoutCount (run evs initialViewer).
Proof.
  assert (G : forall s, Forall (fun de => positiveCount (snd de)) evs ->
                        pageOneWithoutCount s -> pageOneWithoutCount (run evs s)).
  { induction evs as [| [d ev] rest IH]; intros s Hall Hs; cbn [run]; [exact Hs |].
    inversion Hall; subst. apply IH; [assumption |].
    now apply step_pageOneWithoutCount. }
  intros Hall. apply G; [exact Hall |].
  unfold pageOneWithoutCount. cbn. split; [lia | reflexivity].
Qed.
(** ** Cursor-anchored wheel zoom *)

(** What an accepted wheel event does to scale, pan offset and style. *)
Lemma handleWheel_accepted (d : Dom) (e : WheelEvent) (s : Viewer)
    (c : ContainerEl) (v : DOMRect) :
  (ctrlKey (mouse e) || metaKey (mouse e)) = true -> isFocused s = true ->
  containerRef d = Some c -> viewerRef d = Some v ->
  let p := toWorld s (cursorPixel c e) in
  let s' := handleWheel d e s in
  scale s' = wheelScale e s /\
  fitScale s' = fitScale s /\
  panOffsetRef s' =
    {| x := x (cursorPixel c e) - x p * wheelScale e s;
       y := y (cursorPixel c e) - y p * wheelScale e s |}.
Proof.
  intros Hmod Hfoc Hc Hv. cbv zeta. unfold handleWheel.
  rewrite Hmod, Hfoc, Hc, Hv. cbn [andb].
  repeat split.
  - change (fitScale (setScale ?a ?b)) with (fitScale b).
    rewrite updateTransform_fitScale. reflexivity.
  - change (panOffsetRef (setScale ?a ?b)) with (panOffsetRef b).
    rewrite updateTransform_plain_panOffset. reflexivity.
Qed.

(** C2. A wheel event the handler accepts (ctrl or meta held, pointer
    inside the container, container and viewer mounted), at an old scale
    [s > 0]: with [p = (cursorPixel - panOffset) / s] the content point
    under the cursor, the new pan offset is [cursorPixel - p * s'], so that
    [p * s' + panOffset' = cursorPixel]: the point that was under the cursor
    before the zoom is drawn at the same container pixel after it. *)
Theorem handleWheel_anchors_cursor (d : Dom) (e : WheelEvent) (s : Viewer)
    (c : ContainerEl) (v : DOMRect) :
  (ctrlKey (mouse e) || metaKey (mouse e)) = true -> isFocused s = true ->
  containerRef d = Some c -> viewerRef d = Some v ->
  0 < scale s ->
  let cursor := cursorPixel c e in
  let p := toWorld s cursor in
  let s' := handleWheel d e s in
  x (panOffsetRef s') = x cursor - x p * scale s' /\
  y (panOffsetRef s') = y cursor - y p * scale s' /\
  (* [p] is under the cursor before the zoom ... *)
  x (toScreen s p) == x cursor /\ y (toScreen s p) == y cursor /\
  (* ... and under the cursor after it *)
  x p * scale s' + x (panOffsetRef s') == x cursor /\
  y p * scale s' + y (panOffsetRef s') == y cursor /\
  x (toScreen s' p) == x cursor /\ y (toScreen s' p) == y cursor.
Proof.
  intros Hmod Hfoc Hc Hv Hpos. cbv zeta.
  destruct (handleWheel_accepted d e s c v Hmod Hfoc Hc Hv) as (Hs & _ & Hp).
  unfold toScreen. rewrite !Hp, !Hs. cbn [x y toWorld].
  assert (Hne : ~ scale s == 0) by lra.
  repeat split; try reflexivity; try ring; now field.
Qed.

Lemma handleWheel_anchors_cursor_witness :
  let e := Sample.ctrlWheel 400 300 (-1) in
  let s := Sample.focused in
  let cursor := cursorPixel Sample.container e in
  let p := toWorld s cursor in
  let s' := handleWheel Sample.dom e s in
  x p * scale s' + x (panOffsetRef s') == x cursor /\
  y p * scale s' + y (panOffsetRef s') == y cursor.
Proof.
  assert (Hfoc : isFocused Sample.focused = true) by (vm_compute; reflexivity).
  assert (Hpos : 0 < scale Sample.focused) by (vm_compute; reflexivity).
  pose proof (handleWheel_anchors_cursor Sample.dom (Sample.ctrlWheel 400 300 (-1))
                Sample.focused Sample.container (mkRect 0 0 800 600)
                eq_refl Hfoc eq_refl eq_refl Hpos)
    as (_ & _ & _ & _ & Hx & Hy & _).
  split; [exact Hx | exact Hy].
Defined.

(** One wheel tick in at the centre of the sample view: the scale grows
    from 7/15 by the factor 11/10. *)
Example wheel_in_sample :
  let s' := handleWheel Sample.dom (Sample.ctrlWheel 400 300 (-1)) Sample.focused in
  scale s' == 77 # 150 /\ x (panOffsetRef s') == (400 - (400 - (80 # 3)) * (11 # 10)).
Proof. vm_compute. split; reflexivity. Qed.
(** ** Zoom bounds *)

Lemma handleWheel_scale_cases (d : Dom) (e : WheelEvent) (s : Viewer) :
  fitScale (handleWheel d e s) = fitScale s /\
  (scale (handleWheel d e s) = scale s \/
   scale (handleWheel d e s) = wheelScale e s).
Proof.
  unfold handleWheel.
  destruct ((ctrlKey (mouse e) || metaKey (mouse e)) && isFocused s);
    [| now split; [| left]].
  destruct (containerRef d) as [c|]; [| now split; [| left]].
  destruct (viewerRef d) as [v|]; [| now split; [| left]].
  split; [| right; reflexivity].
  change (fitScale (setScale ?a ?b)) with (fitScale b).
  now rewrite updateTransform_fitScale.
Qed.

Lemma handleZoomIn_scale_cases (d : Dom) (s : Viewer) :
  fitScale (handleZoomIn d s) = fitScale s /\
  (scale (handleZoomIn d s) = scale s \/
   scale (handleZoomIn d s) = Qmin 5 (scale s * (11 # 10))).
Proof.
  unfold handleZoomIn. destruct (containerRef d) as [c|]; [| now split; [| left]].
  split; [| right; reflexivity].
  change (fitScale (setScale ?a ?b)) with (fitScale b).
  now rewrite updateTransform_fitScale.
Qed.

Lemma handleZoomOut_scale_cases (d : Dom) (s : Viewer) :
  fitScale (handleZoomOut d s) = fitScale s /\
  (scale (handleZoomOut d s) = scale s \/
   scale (handleZoomOut d s) = Qmax (fitScale s * (5 # 10)) (scale s / (11 # 10))).
Proof.
  unfold handleZoomOut. destruct (containerRef d) as [c|]; [| now split; [| left]].
  split; [| right; reflexivity].
  change (fitScale (setScale ?a ?b)) with (fitScale b).
  now rewrite updateTransform_fitScale.
Qed.

Lemma calculateFitScale_scale_cases (d : Dom) (s : Viewer) :
  (fitScale (calculateFitScale d s) = fitScale s /\
   scale (calculateFitScale d s) = scale s) \/
  scale (calculateFitScale d s) = fitScale (calculateFitScale d s).
Proof.
  unfold calculateFitScale.
  destruct (containerRef d) as [c |]; [| now left].
  destruct (pageRef d) as [p |]; [| now left].
  destruct (negb (isLoading s)); [| now left].
  right. rewrite updateTransform_scale, updateTransform_fitScale. reflexivity.
Qed.

Lemma fire_scale (name : string) (d : Dom) (e : MouseEvent) (s : Viewer) :
  fitScale (fire name d e s) = fitScale s /\ scale (fire name d e s) = scale s.
Proof.
  unfold fire, getProp, containerAttributes. cbn [fold_left fst snd].
  repeat match goal with
         | |- context [String.eqb ?a ?b] => destruct (String.eqb a b)
         end;
    try (split; reflexivity).
  - unfold handleMouseMove. destruct (isPanning s); [| split; reflexivity].
    now rewrite updateTransform_fitScale, updateTransform_scale.
  - unfold handleMouseDown. destruct (button e =? 0)%Z; split; reflexivity.
Qed.

(** What each handler does to scale and fit scale; a handler that sets a
    new fit scale leaves [isLoading] alone or sets it. *)
Lemma handle_moves (d : Dom) (ev : Event) (s : Viewer) :
  zoomMove s (handle d ev s) \/
  (fitMove (handle d ev s) /\
   (isLoading (handle d ev s) = isLoading s \/ isLoading (handle d ev s) = true)).
Proof.
  assert (same : forall s', fitScale s' = fitScale s /\ scale s' = scale s ->
                            zoomMove s s').
  { intros s' [Hf Hs]. split; [exact Hf | left; exact Hs]. }
  destruct ev as [isOpen | n | m | | | e | e | e | e | e | e | | | | | | v];
    cbn [handle].
  - destruct isOpen; cbn.
    + left. apply same. split; reflexivity.
    + right. split; [reflexivity | right; reflexivity].
  - left. apply same; split; reflexivity.
  - left. apply same; split; reflexivity.
  - left. apply same; split; reflexivity.
  - unfold onResize. destruct (negb (isLoading s)); [| left; apply same; split; reflexivity].
    destruct (calculateFitScale_scale_cases d s) as [H | H];
      [left; apply same; exact H |].
    right. split; [exact H | left].
    unfold calculateFitScale, updateTransform.
    destruct (containerRef d), (pageRef d), (negb (isLoading s)), (viewerRef d);
      reflexivity.
  - left. destruct (handleWheel_scale_cases d e s) as [Hf [Hs | Hs]];
      (split; [exact Hf |]); [now left |].
    rewrite Hs. unfold wheelScale, zoomFactor.
    destruct (Qltb 0 (- deltaY e)); [right; left | right; right; right]; reflexivity.
  - left. apply same, fire_scale.
  - left. apply same, fire_scale.
  - left. apply same, fire_scale.
  - left. apply same, fire_scale.
  - left. apply same, fire_scale.
  - left. apply same. rewrite clickPrevious_frame. split; reflexivity.
  - left. apply same. rewrite clickNext_frame. split; reflexivity.
  - left. unfold clickZoomIn, click.
    destruct (Qle_bool MAX_SCALE (scale s)); [apply same; split; reflexivity |].
    destruct (handleZoomIn_scale_cases d s) as [Hf [Hs | Hs]];
      (split; [exact Hf |]); auto.
  - left. unfold clickZoomOut, click.
    destruct (Qle_bool (scale s) (fitScale s * MIN_SCALE_FACTOR));
      [apply same; split; reflexivity |].
    destruct (handleZoomOut_scale_cases d s) as [Hf [Hs | Hs]];
      (split; [exact Hf |]); auto.
  - right. split.
    + unfold fitMove, clickResetView, click, handleResetView.
      cbn [scale fitScale setScale]. rewrite updateTransform_fitScale. reflexivity.
    + left. unfold clickResetView, click, handleResetView, updateTransform.
      destruct (viewerRef d), (containerRef d), (pageRef d); reflexivity.
  - left. apply same; split; reflexivity.
Qed.

Lemma registerWheel_view (a b : Viewer) :
  scale (registerWheel a b) = scale b /\
  fitScale (registerWheel a b) = fitScale b /\
  isLoading (registerWheel a b) = isLoading b /\
  (wheelFitScale (registerWheel a b) = wheelFitScale b \/
   wheelFitScale (registerWheel a b) = fitScale b).
Proof.
  destruct (registerWheel_cases a b) as [(_ & _ & E) | (_ & E)]; rewrite E;
    repeat split; auto.
Qed.

(** Registration keeps the listener fresh across a move that leaves the
    fit scale alone or puts the scale on it. *)
Lemma registerWheel_fresh (a b : Viewer) :
  wheelFitScale b = wheelFitScale a -> listenerFresh a ->
  fitScale b = fitScale a \/ scale b == fitScale b ->
  listenerFresh (registerWheel a b).
Proof.
  intros Hw Ha Hm. unfold listenerFresh.
  destruct (registerWheel_cases a b) as [(_ & Es & E) | (_ & E)]; rewrite E.
  - destruct Hm as [Hf | Hk]; [| right; exact Hk].
    destruct Ha as [Ha | Ha].
    + left. congruence.
    + right. rewrite <- Es, Hf. exact Ha.
  - left. reflexivity.
Qed.

(** A whole step: how it moves scale and fit scale, which fit scale the
    listener ends up with, and that it keeps the listener fresh. *)
Lemma step_moves (d : Dom) (ev : Event) (s : Viewer) :
  (zoomMove s (step d ev s) \/ fitMove (step d ev s)) /\
  (wheelFitScale (step d ev s) = wheelFitScale s \/
   wheelFitScale (step d ev s) = fitScale s \/
   wheelFitScale (step d ev s) = fitScale (step d ev s)) /\
  (listenerFresh s -> listenerFresh (step d ev s)).
Proof.
  unfold step.
  pose proof (handle_moves d ev s) as Hm.
  pose proof (handle_wheelFitScale d ev s) as Hw.
  set (h := handle d ev s) in *.
  destruct (registerWheel_view s h) as (Ek & Ef & El & EL).
  assert (Hfresh : listenerFresh s -> listenerFresh (registerWheel s h)).
  { intros Hs. apply registerWheel_fresh; [exact Hw | exact Hs |].
    destruct Hm as [[Hf _] | [Hk _]]; [left; exact Hf |].
    right. unfold fitMove in Hk. rewrite Hk. reflexivity. }
  assert (M1 : zoomMove s (registerWheel s h) \/ fitMove (registerWheel s h)).
  { unfold zoomMove, fitMove. rewrite Ek, Ef.
    destruct Hm as [Hz | [Hk _]]; [left; exact Hz | right; exact Hk]. }
  assert (L1 : wheelFitScale (registerWheel s h) = wheelFitScale s \/
               wheelFitScale (registerWheel s h) = fitScale s \/
               wheelFitScale (registerWheel s h) = fitScale (registerWheel s h)).
  { rewrite Ef. destruct EL as [E | E]; rewrite E; [left; exact Hw | auto]. }
  set (r1 := registerWheel s h) in *.
  destruct (Bool.eqb (isLoading s) (isLoading r1)) eqn:Eb; [auto |].
  apply Bool.eqb_false_iff in Eb. rewrite El in Eb.
  unfold isLoadingEffect. destruct (isLoading r1) eqn:Er; cbn [negb].
  - rewrite (registerWheel_unchanged r1 r1) by reflexivity. auto.
  - rewrite El in Er.
    assert (Hz : zoomMove s h).
    { destruct Hm as [Hz | [_ [E | E]]]; [exact Hz | | ]; congruence. }
    destruct Hz as [HF Hk].
    pose proof (calculateFitScale_wheelFitScale d r1) as Hw2.
    destruct (registerWheel_view r1 (calculateFitScale d r1)) as (Ek2 & Ef2 & _ & EL2).
    assert (F1 : fitScale r1 = fitScale s) by congruence.
    split; [| split].
    + unfold zoomMove, fitMove. rewrite Ek2, Ef2.
      destruct (calculateFitScale_scale_cases d r1) as [[Hf2 Hk2] | Hk2];
        [left | right; exact Hk2].
      rewrite Hf2, Hk2, Ek, F1. split; [reflexivity | exact Hk].
    + rewrite Ef2. destruct EL2 as [E | E]; rewrite E; [| auto].
      rewrite Hw2. destruct L1 as [L1 | [L1 | L1]]; auto.
      right. left. congruence.
    + intros Hs. apply registerWheel_fresh; [exact Hw2 | exact (Hfresh Hs) |].
      destruct (calculateFitScale_scale_cases d r1) as [[Hf2 _] | Hk2];
        [left; exact Hf2 | right; rewrite Hk2; reflexivity].
Qed.

Lemma zoomIn_floor (f k : Q) :
  0 <= k -> f * (5 # 10) <= k -> f <= 5 ->
  0 <= Qmin 5 (k * (11 # 10)) /\ f * (5 # 10) <= Qmin 5 (k * (11 # 10)).
Proof.
  intros Hk0 Hlo Hf.
  destruct (Q.min_spec 5 (k * (11 # 10))) as [[Hc E] | [Hc E]]; rewrite E;
    split; lra.
Qed.

Lemma zoomOut_floor (f k : Q) :
  0 <= k ->
  0 <= Qmax (f * (5 # 10)) (k / (11 # 10)) /\
  f * (5 # 10) <= Qmax (f * (5 # 10)) (k / (11 # 10)).
Proof.
  intros Hk0.
  assert (Ediv : k / (11 # 10) == k * (10 # 11)) by (field; lra).
  revert Ediv. generalize (k / (11 # 10)). intros q Ediv.
  destruct (Q.max_spec (f * (5 # 10)) q) as [[Hc E] | [Hc E]];
    rewrite E; split; lra.
Qed.

(** A wheel step out, whose floor is the listener's: it keeps the current
    floor all the same, because a stale listener finds the scale on the fit
    scale. *)
Lemma wheelOut_floor (f l k : Q) :
  0 <= k -> f * (5 # 10) <= k -> 0 <= f -> l = f \/ k == f ->
  0 <= Qmax (l * (5 # 10)) (k / (11 # 10)) /\
  f * (5 # 10) <= Qmax (l * (5 # 10)) (k / (11 # 10)).
Proof.
  intros Hk0 Hlo Hf Hl.
  assert (Ediv : k / (11 # 10) == k * (10 # 11)) by (field; lra).
  revert Ediv. generalize (k / (11 # 10)). intros q Ediv.
  destruct (Q.max_spec (l * (5 # 10)) q) as [[Hc E] | [Hc E]]; rewrite E;
    destruct Hl as [-> | Hl]; split; lra.
Qed.

Lemma zoomOut_ceiling (f k : Q) :
  0 <= k -> f * (5 # 10) <= k -> k <= 5 ->
  Qmax (f * (5 # 10)) (k / (11 # 10)) <= 5.
Proof.
  intros Hk0 Hlo Hhi.
  assert (Ediv : k / (11 # 10) == k * (10 # 11)) by (field; lra).
  revert Ediv. generalize (k / (11 # 10)). intros q Ediv.
  destruct (Q.max_spec (f * (5 # 10)) q) as [[Hc E] | [Hc E]]; rewrite E; lra.
Qed.

Lemma wheelOut_ceiling (l k : Q) :
  0 <= k -> k <= 5 -> l <= 5 -> Qmax (l * (5 # 10)) (k / (11 # 10)) <= 5.
Proof.
  intros Hk0 Hhi Hl.
  assert (Ediv : k / (11 # 10) == k * (10 # 11)) by (field; lra).
  revert Ediv. generalize (k / (11 # 10)). intros q Ediv.
  destruct (Q.max_spec (l * (5 # 10)) q) as [[Hc E] | [Hc E]]; rewrite E; lra.
Qed.

(** The floor is an invariant of every event. *)
Lemma step_scaleAboveFloor (d : Dom) (ev : Event) (s : Viewer) :
  scaleAboveFloor s -> scaleAboveFloor (step d ev s).
Proof.
  intros [Hfresh Hs].
  destruct (step_moves d ev s) as ([[HF Hk] | Hk] & _ & Hfr).
  - split; [exact (Hfr Hfresh) |]. rewrite HF. intros H0 H5.
    destruct (Hs H0 H5) as [Hk0 Hlo].
    destruct Hk as [E | [E | [E | E]]]; rewrite E.
    + auto.
    + now apply zoomIn_floor.
    + now apply zoomOut_floor.
    + now apply wheelOut_floor.
  - split; [exact (Hfr Hfresh) |]. unfold fitMove in Hk. rewrite Hk.
    intros H0 H5. split; lra.
Qed.

Lemma reachable_scaleAboveFloor (s : Viewer) : reachable s -> scaleAboveFloor s.
Proof.
  intros (evs & _ & <-).
  assert (G : forall t, scaleAboveFloor t -> scaleAboveFloor (run evs t)).
  { induction evs as [| [d ev] rest IH]; intros t Ht; cbn [run]; [exact Ht |].
    apply IH. now apply step_scaleAboveFloor. }
  apply G. split; [left; reflexivity |]. cbn. intros _ _. split; lra.
Qed.

(** Floor and ceiling are kept as long as the fit scale stays in
    [[0, 5]]. *)
Lemma step_zoomInvariant (d : Dom) (ev : Event) (s : Viewer) :
  zoomInvariant s -> fitWithin s -> fitWithin (step d ev s) ->
  zoomInvariant (step d ev s).
Proof.
  intros (Hk0 & Hlo & Hhi & HL0 & HL5 & Hfresh) [F0 F5] [G0 G5].
  destruct (step_moves d ev s) as (Hm & HL & Hfr).
  assert (L' : 0 <= wheelFitScale (step d ev s) /\ wheelFitScale (step d ev s) <= 5).
  { destruct HL as [E | [E | E]]; rewrite E; auto. }
  destruct L' as [L0 L5].
  unfold zoomInvariant.
  destruct Hm as [[HF Hk] | Hk].
  - rewrite HF.
    assert (B : 0 <= scale (step d ev s) /\
                fitScale s * (5 # 10) <= scale (step d ev s) /\
                scale (step d ev s) <= 5).
    { destruct Hk as [E | [E | [E | E]]]; rewrite E.
      - auto.
      - destruct (zoomIn_floor (fitScale s) (scale s) Hk0 Hlo F5).
        pose proof (Q.le_min_l 5 (scale s * (11 # 10))). auto.
      - destruct (zoomOut_floor (fitScale s) (scale s) Hk0).
        pose proof (zoomOut_ceiling (fitScale s) (scale s) Hk0 Hlo Hhi). auto.
      - destruct (wheelOut_floor (fitScale s) (wheelFitScale s) (scale s) Hk0 Hlo F0
                    Hfresh).
        pose proof (wheelOut_ceiling (wheelFitScale s) (scale s) Hk0 Hhi HL5). auto. }
    destruct B as (B0 & B1 & B2). repeat split; auto.
  - unfold fitMove in Hk. rewrite Hk. repeat split; auto; lra.
Qed.

Lemma reachedWithin_zoomInvariant (s : Viewer) :
  reachedWithin s -> zoomInvariant s /\ fitWithin s.
Proof.
  induction 1 as [| d ev s _ [IH IHf] _ Hf].
  - split.
    + unfold zoomInvariant, listenerFresh. cbn.
      repeat split; try lra; try (now left).
    + unfold fitWithin. cbn. split; lra.
  - split; [now apply step_zoomInvariant | exact Hf].
Qed.

Lemma zoom_fitScale (d : Dom) (op : ZoomOp) (s : Viewer) :
  fitScale (zoom d op s) = fitScale s.
Proof.
  unfold zoom.
  assert (Hl : isLoading (handle d (zoomEvent op) s) = isLoading s).
  { destruct op; cbn [zoomEvent handle].
    - unfold handleWheel, updateTransform.
      destruct ((ctrlKey (mouse e) || metaKey (mouse e)) && isFocused s),
        (containerRef d), (viewerRef d), (pageRef d); reflexivity.
    - unfold clickZoomIn, click, handleZoomIn, updateTransform.
      destruct (Qle_bool MAX_SCALE (scale s)), (containerRef d), (viewerRef d),
        (pageRef d); reflexivity.
    - unfold clickZoomOut, click, handleZoomOut, updateTransform.
      destruct (Qle_bool (scale s) (fitScale s * MIN_SCALE_FACTOR)), (containerRef d),
        (viewerRef d), (pageRef d); reflexivity. }
  assert (Hf : fitScale (handle d (zoomEvent op) s) = fitScale s).
  { destruct op; cbn [zoomEvent handle].
    - apply handleWheel_scale_cases.
    - unfold clickZoomIn, click. destruct (Qle_bool MAX_SCALE (scale s)); [reflexivity |].
      apply handleZoomIn_scale_cases.
    - unfold clickZoomOut, click.
      destruct (Qle_bool (scale s) (fitScale s * MIN_SCALE_FACTOR)); [reflexivity |].
      apply handleZoomOut_scale_cases. }
  destruct (step_cases d (zoomEvent op) s) as (f & E & _). rewrite E.
  cbn [fitScale setWheelFitScale]. rewrite Hl, Bool.eqb_reflx. exact Hf.
Qed.

Lemma zoomTrace_within_bounds (ops : list (Dom * ZoomOp)) (s : Viewer) :
  zoomInvariant s -> fitWithin s -> Forall inZoomBounds (zoomTrace ops s).
Proof.
  revert s. induction ops as [| [d op] rest IH]; intros s Hs Hf; cbn [zoomTrace].
  - constructor.
  - assert (Hf' : fitWithin (zoom d op s)).
    { unfold fitWithin. rewrite zoom_fitScale. exact Hf. }
    pose proof (step_zoomInvariant d (zoomEvent op) s Hs Hf Hf') as Hs'.
    constructor.
    + destruct Hs' as (_ & Hlo & Hhi & _). split; assumption.
    + now apply IH.
Qed.

(** C3, as the code has it.  From any state reached by events after each
    of which the fit scale lay in [[0, 5]], the scale after each operation
    of any sequence of wheel and button zooms lies in
    [[fitScale * 0.5, 5]]. *)
Theorem zoom_sequence_within_bounds (ops : list (Dom * ZoomOp)) (s : Viewer) :
  reachedWithin s -> Forall inZoomBounds (zoomTrace ops s).
Proof.
  intros Hr. destruct (reachedWithin_zoomInvariant s Hr) as [Hs Hf].
  now apply zoomTrace_within_bounds.
Qed.

Lemma zoom_sequence_within_bounds_witness :
  Forall inZoomBounds
    (zoomTrace [ (Sample.dom, WheelZoom (Sample.ctrlWheel 400 300 (-1)));
                 (Sample.dom, ButtonZoomOut);
                 (Sample.dom, ButtonZoomOut);
                 (Sample.dom, ButtonZoomIn) ]
               Sample.focused).
Proof.
  apply zoom_sequence_within_bounds.
  unfold Sample.focused. cbn [run].
  assert (Hm : measured Sample.dom) by (split; discriminate).
  repeat (apply reached_step;
          [| exact Hm | vm_compute; split; discriminate]).
  apply reached_initial.
Defined.

(** The scales of that sequence: 7/15 is multiplied by 1.1, divided by 1.1
    twice, multiplied by 1.1. *)
Example zoom_sequence_sample :
  map (fun s => Qred (scale s))
    (zoomTrace [ (Sample.dom, WheelZoom (Sample.ctrlWheel 400 300 (-1)));
                 (Sample.dom, ButtonZoomOut);
                 (Sample.dom, ButtonZoomOut);
                 (Sample.dom, ButtonZoomIn) ]
               Sample.focused)
  = [77 # 150; 7 # 15; 14 # 33; 7 # 15].
Proof. vm_compute. reflexivity. Qed.

(** C3, as stated, fails, in two ways.  A 100 x 100 page in an 840 x 640
    container is fitted at scale 6; the zoom-out button is enabled there
    and takes the scale to 60/11, above the ceiling 5.  And a fit scale in
    [[0, 5]] at the time of the zoom is not enough: after a fit at 12, a
    wheel zoom in to 5 and a resize that makes the fit scale 5, the scale
    has not changed, the wheel listener still holds the fit scale 12, and
    one wheel tick out takes the scale to its floor 6. *)
Lemma zoom_bounds_counterexample :
  let s := Sample.smallPageFitted in
  let s' := zoom Sample.smallPageDom ButtonZoomOut s in
  let t := Sample.refitted in
  let t' := zoom Sample.tinyPageShrunkDom (WheelZoom (Sample.ctrlWheel 100 100 1)) t in
  (reachable s /\
   fitScale s == 6 /\ scale s == 6 /\
   fitScale s' == 6 /\ scale s' == 60 # 11 /\
   ~ inZoomBounds s') /\
  (reachable t /\
   fitScale t == 5 /\ scale t == 5 /\ wheelFitScale t == 12 /\
   fitScale t' == 5 /\ scale t' == 6 /\
   ~ inZoomBounds t').
Proof.
  cbv zeta. split.
  - split.
    { unfold Sample.smallPageFitted. eexists. split; [| reflexivity].
      repeat constructor; discriminate. }
    repeat split; try (vm_compute; reflexivity).
    intros [_ Hhi]. vm_compute in Hhi. apply Hhi. reflexivity.
  - split.
    { unfold Sample.refitted. eexists. split; [| reflexivity].
      repeat constructor; discriminate. }
    repeat split; try (vm_compute; reflexivity).
    intros [_ Hhi]. vm_compute in Hhi. apply Hhi. reflexivity.
Qed.

(** ** Pan state machine *)

(** A primary-button press starts a pan session: it records the pointer
    and takes the current pan offset as baseline. *)
Lemma mouseDown_starts_pan (d : Dom) (e : MouseEvent) (s : Viewer) :
  button e = 0%Z ->
  let s' := fire "onMouseDown" d e s in
  isPanning s' = true /\
  startPanRef s' = {| x := clientX e; y := clientY e |} /\
  lastTransformRef s' = panOffsetRef s /\
  panOffsetRef s' = panOffsetRef s /\ scale s' = scale s.
Proof.
  intros Hb. cbv zeta. cbn. unfold handleMouseDown. rewrite Hb. cbn.
  repeat split; reflexivity.
Qed.

(** While panning, a move puts the pan offset at the baseline plus the
    pointer's displacement since the press, at unchanged scale. *)
Lemma mouseMove_pans (d : Dom) (e : MouseEvent) (s : Viewer) :
  isPanning s = true ->
  let s' := fire "onMouseMove" d e s in
  panOffsetRef s' =
    {| x := x (lastTransformRef s) + (clientX e - x (startPanRef s));
       y := y (lastTransformRef s) + (clientY e - y (startPanRef s)) |} /\
  scale s' = scale s /\ isPanning s' = true.
Proof.
  intros Hp. cbv zeta. cbn. unfold handleMouseMove. rewrite Hp.
  rewrite updateTransform_plain_panOffset, updateTransform_scale.
  repeat split; try reflexivity.
  unfold updateTransform.
  destruct (viewerRef d), (containerRef d), (pageRef d); exact Hp.
Qed.

(** Releasing the button ends the session. *)
Lemma mouseUp_ends_pan (d : Dom) (e : MouseEvent) (s : Viewer) :
  fire "onMouseUp" d e s = setIsPanning false s.
Proof. reflexivity. Qed.

(** C4, the pointer-leave transition.  The container is given
    [onMouseLeave] twice, first [handleMouseUp], then the focus handler;
    the binding written last is the one in effect, so a pointer-leave only
    clears [isFocused] and never ends a pan session: in every state
    [isPanning] is what it was, and after a press followed by a leave the
    instance is still panning, and once the pointer is back a move drags the
    content although no button is held. *)
Theorem mouseLeave_keeps_panning :
  (forall (d : Dom) (e : MouseEvent) (s : Viewer),
      fire "onMouseLeave" d e s = setIsFocused false s /\
      isPanning (fire "onMouseLeave" d e s) = isPanning s) /\
  let s1 := run [ (Sample.dom, MouseEnter (Sample.pointer 100 100));
                  (Sample.dom, MouseDown (Sample.pointer 100 100));
                  (Sample.dom, MouseLeave (Sample.pointer 0 100)) ] Sample.loaded in
  let s2 := run [ (Sample.dom, MouseEnter (Sample.pointer 1 100));
                  (Sample.dom, MouseMove (Sample.pointer 130 140)) ] s1 in
  isPanning s1 = true /\
  x (panOffsetRef s2) == x (panOffsetRef s1) + 30 /\
  y (panOffsetRef s2) == y (panOffsetRef s1) + 40.
Proof.
  split.
  - intros d e s. split; reflexivity.
  - vm_compute. repeat split; reflexivity.
Qed.

(** ** Button zoom and the transform applier *)

(** The centre of the container, as a fraction of its extent, is one half. *)
Lemma containerCenter_relative (c : ContainerEl) :
  ~ width (containerRect c) == 0 -> ~ height (containerRect c) == 0 ->
  (x (containerCenter c) - left (containerRect c)) / width (containerRect c) == 1 # 2 /\
  (y (containerCenter c) - top (containerRect c)) / height (containerRect c) == 1 # 2.
Proof.
  intros Hw Hh. unfold containerCenter. cbn [x y]. split; now field.
Qed.

(** C5. With the three refs set, the zoom-in and zoom-out handlers take as
    anchor the centre of the container's bounding box (they read no pointer
    position), and move the pan offset by
    [(viewerWidth / newScale - viewerWidth / oldScale) * relX] (and the same
    in [y]), [relX], [relY] being the anchor's position as a fraction of the
    container's width and height, one half for a container of non-zero
    extent.  Without an anchor [updateTransform] only writes
    [translate(panOffset) scale(newScale)] and leaves the pan offset as it
    is. *)
Theorem button_zoom_anchors_center (d : Dom) (s : Viewer)
    (c : ContainerEl) (viewer : DOMRect) (pg : PageEl) :
  containerRef d = Some c -> viewerRef d = Some viewer -> pageRef d = Some pg ->
  let rect := containerRect c in
  let anchor := {| x := left rect + width rect / 2; y := top rect + height rect / 2 |} in
  let relX := (x anchor - left rect) / width rect in
  let relY := (y anchor - top rect) / height rect in
  let moved (newScale : Q) :=
    {| x := x (panOffsetRef s) + (width viewer / newScale - width viewer / scale s) * relX;
       y := y (panOffsetRef s) + (height viewer / newScale - height viewer / scale s) * relY |} in
  let zin := Qmin 5 (scale s * (11 # 10)) in
  let zout := Qmax (fitScale s * (5 # 10)) (scale s / (11 # 10)) in
  (* zoom in *)
  scale (handleZoomIn d s) = zin /\
  panOffsetRef (handleZoomIn d s) = moved zin /\
  viewerTransform (handleZoomIn d s) =
    Some (mkTransform (x (moved zin)) (y (moved zin)) zin) /\
  (* zoom out *)
  scale (handleZoomOut d s) = zout /\
  panOffsetRef (handleZoomOut d s) = moved zout /\
  viewerTransform (handleZoomOut d s) =
    Some (mkTransform (x (moved zout)) (y (moved zout)) zout) /\
  (* the anchor is the middle of the container *)
  (~ width rect == 0 -> relX == 1 # 2) /\
  (~ height rect == 0 -> relY == 1 # 2) /\
  (* no anchor: translate, then scale, with the offset as it is *)
  (forall newScale : Q,
      updateTransform d newScale None s =
      setViewerTransform
        (Some (mkTransform (x (panOffsetRef s)) (y (panOffsetRef s)) newScale)) s).
Proof.
  intros Hc Hv Hp. cbv zeta.
  unfold handleZoomIn, handleZoomOut, updateTransform, containerCenter.
  rewrite Hc, Hv, Hp. cbn.
  repeat match goal with |- _ /\ _ => split end; try reflexivity.
  - intros Hw. now field.
  - intros Hh. now field.
Qed.

Lemma button_zoom_anchors_center_witness :
  let s := Sample.loaded in
  scale (handleZoomIn Sample.dom s) = Qmin 5 (scale s * (11 # 10)) /\
  x (panOffsetRef (handleZoomIn Sample.dom s)) ==
    x (panOffsetRef s) + (800 / (77 # 150) - 800 / (7 # 15)) * (1 # 2).
Proof.
  pose proof (button_zoom_anchors_center Sample.dom Sample.loaded Sample.container
                (mkRect 0 0 800 600) Sample.page eq_refl eq_refl eq_refl)
    as (Hs & Hp & _).
  split; [exact Hs |].
  rewrite Hp. vm_compute. reflexivity.
Defined.

(** ** Reset *)

(** C6. Reset sets the scale to the fit scale and zeroes the pan offset
    (it does not restore the centring offset of the fit) and leaves the fit
    scale alone; a second reset changes nothing more, neither in the
    instance nor, whatever the refs are by then, in the viewport state. *)
Theorem handleResetView_idempotent (d d' : Dom) (s : Viewer) :
  scale (handleResetView d s) = fitScale s /\
  fitScale (handleResetView d s) = fitScale s /\
  panOffsetRef (handleResetView d s) = {| x := 0; y := 0 |} /\
  handleResetView d (handleResetView d s) = handleResetView d s /\
  viewportState (handleResetView d' (handleResetView d s)) =
    viewportState (handleResetView d s).
Proof.
  unfold handleResetView, updateTransform, viewportState.
  destruct (viewerRef d), (containerRef d), (pageRef d);
    destruct (viewerRef d'), (containerRef d'), (pageRef d');
    repeat split; reflexivity.
Qed.

(** After a fit that did not centre at the origin, reset does not bring the
    centring offset back. *)
Example reset_does_not_recentre :
  let s := Sample.loaded in
  x (panOffsetRef s) == 80 # 3 /\
  panOffsetRef (handleResetView Sample.dom s) = origin /\
  scale (handleResetView Sample.dom s) == 7 # 15.
Proof. vm_compute. repeat split; reflexivity. Qed.

(** ** Page navigation *)

(** C7, as the code has it.  The previous and next buttons change nothing
    but the page number.  Previous at page 1 (or below) and next at the
    last page (or beyond) change nothing at all, and a page number within
    [[1, total]] stays within it.  With [total = 0] next changes nothing,
    and previous changes nothing exactly at page 1, the page the viewer is
    on while it has no page count as long as documents have at least one
    page ([reachable_pageOneWithoutCount]).  From a page beyond the last,
    previous goes back by one page without jumping into the range. *)
Theorem page_navigation_clamped (s : Viewer) :
  (* frame *)
  clickPrevious s = setPageNumber (pageNumber (clickPrevious s)) s /\
  clickNext s = setPageNumber (pageNumber (clickNext s)) s /\
  (* boundaries *)
  ((pageNumber s <= 1)%Z -> clickPrevious s = s) /\
  ((numPages s <= pageNumber s)%Z -> clickNext s = s) /\
  (* the range is kept *)
  ((1 <= pageNumber s <= numPages s)%Z ->
   (1 <= pageNumber (clickPrevious s) <= numPages s)%Z /\
   (1 <= pageNumber (clickNext s) <= numPages s)%Z) /\
  (* no page count *)
  (numPages s = 0%Z -> (1 <= pageNumber s)%Z ->
   clickNext s = s /\ (clickPrevious s = s <-> pageNumber s = 1%Z)) /\
  (* beyond the last page *)
  ((1 < pageNumber s)%Z ->
   pageNumber (clickPrevious s) = (pageNumber s - 1)%Z).
Proof.
  assert (Hprev : (pageNumber s <= 1)%Z -> clickPrevious s = s).
  { intros H. unfold clickPrevious, click.
    replace (pageNumber s <=? 1)%Z with true; [reflexivity |].
    symmetry. apply Z.leb_le. exact H. }
  assert (Hnext : (numPages s <= pageNumber s)%Z -> clickNext s = s).
  { intros H. unfold clickNext, click.
    replace (pageNumber s >=? numPages s)%Z with true; [reflexivity |].
    symmetry. rewrite Z.geb_leb. apply Z.leb_le. exact H. }
  assert (Hback : (1 < pageNumber s)%Z ->
                  pageNumber (clickPrevious s) = (pageNumber s - 1)%Z).
  { intros H. rewrite clickPrevious_pageNumber.
    destruct (Z.leb_spec (pageNumber s) 1); lia. }
  split; [apply clickPrevious_frame |].
  split; [apply clickNext_frame |].
  split; [exact Hprev |]. split; [exact Hnext |].
  split; [| split; [| exact Hback]].
  - intros H. rewrite clickPrevious_pageNumber, clickNext_pageNumber.
    destruct (Z.leb_spec (pageNumber s) 1);
      destruct (pageNumber s >=? numPages s)%Z eqn:E;
      rewrite Z.geb_leb in E;
      [apply Z.leb_le in E | apply Z.leb_gt in E
      |apply Z.leb_le in E | apply Z.leb_gt in E]; lia.
  - intros H0 H1. split; [apply Hnext; lia |]. split.
    + intros E. destruct (Z.eq_dec (pageNumber s) 1) as [E1 | N1]; [exact E1 |].
      assert (Hb : pageNumber (clickPrevious s) = (pageNumber s - 1)%Z)
        by (apply Hback; lia).
      rewrite E in Hb. lia.
    + intros E. apply Hprev. lia.
Qed.

Lemma page_navigation_clamped_witness :
  clickPrevious initialViewer = initialViewer /\
  clickNext initialViewer = initialViewer /\
  (1 <= pageNumber (clickNext Sample.loaded) <= numPages Sample.loaded)%Z.
Proof.
  destruct (page_navigation_clamped initialViewer) as (_ & _ & _ & _ & _ & H0 & _).
  destruct (page_navigation_clamped Sample.loaded) as (_ & _ & _ & _ & Hk & _).
  assert (Hr : (1 <= pageNumber Sample.loaded <= numPages Sample.loaded)%Z)
    by (vm_compute; split; discriminate).
  assert (H1 : (1 <= pageNumber initialViewer)%Z) by (vm_compute; discriminate).
  destruct (H0 eq_refl H1) as [Hn Hp].
  split; [exact (proj2 Hp eq_refl) | split; [exact Hn | exact (proj2 (Hk Hr))]].
Defined.

(** Paging through the sample document: forward twice, back three times. *)
Example paging_sample :
  map pageNumber
    [ clickNext Sample.loaded;
      clickNext (clickNext Sample.loaded);
      clickPrevious (clickNext (clickNext Sample.loaded));
      clickPrevious (clickPrevious (clickNext (clickNext Sample.loaded)));
      clickPrevious (clickPrevious (clickPrevious (clickNext (clickNext Sample.loaded)))) ]
  = [2; 3; 2; 1; 1]%Z.
Proof. vm_compute. reflexivity. Qed.

(** C7, as stated, fails outside the range.  On page 2 with no page count
    (a document of two pages, then one that reports none) previous is
    enabled and goes to page 1; on page 4 of 2 (a document of twelve pages,
    then one of two) previous goes to page 3, which is not in
    [[1, 2]]. *)
Lemma page_navigation_counterexample :
  let s := Sample.pageTwoOfNone in
  let t := Sample.pageFourOfTwo in
  (reachable s /\ pageNumber s = 2%Z /\ numPages s = 0%Z /\
   clickPrevious s <> s /\ pageNumber (clickPrevious s) = 1%Z) /\
  (reachable t /\ pageNumber t = 4%Z /\ numPages t = 2%Z /\
   pageNumber (clickPrevious t) = 3%Z /\
   ~ (1 <= pageNumber (clickPrevious t) <= numPages (clickPrevious t))%Z).
Proof.
  cbv zeta. split.
  - split.
    { unfold Sample.pageTwoOfNone. eexists. split; [| reflexivity].
      repeat constructor; discriminate. }
    repeat split; try (vm_compute; reflexivity).
    intros H. apply (f_equal pageNumber) in H. vm_compute in H. discriminate H.
  - split.
    { unfold Sample.pageFourOfTwo. eexists. split; [| reflexivity].
      repeat constructor; discriminate. }
    repeat split; try (vm_compute; reflexivity).
    intros [_ H]. vm_compute in H. apply H. reflexivity.
Qed.

(** ** Closing and reopening *)

(** A close runs the reset, and registers the wheel listener anew if the
    reset changed the scale. *)
Lemma step_close (d : Dom) (s : Viewer) :
  step d (IsOpenChanged false) s = registerWheel s (isOpenEffect false s) /\
  exists f, step d (IsOpenChanged false) s = setWheelFitScale f (isOpenEffect false s).
Proof.
  assert (E : step d (IsOpenChanged false) s = registerWheel s (isOpenEffect false s)).
  { unfold step. cbn [handle]. set (r := registerWheel s (isOpenEffect false s)).
    assert (Hl : isLoading r = true).
    { unfold r. destruct (registerWheel_view s (isOpenEffect false s)) as (_ & _ & El & _).
      rewrite El. reflexivity. }
    destruct (Bool.eqb (isLoading s) (isLoading r)); [reflexivity |].
    unfold isLoadingEffect. rewrite Hl. cbn [negb].
    apply registerWheel_unchanged; reflexivity. }
  split; [exact E |]. rewrite E.
  destruct (registerWheel_cases s (isOpenEffect false s)) as [(_ & _ & R) | (_ & R)];
    rewrite R.
  - exists (wheelFitScale (isOpenEffect false s)). now rewrite setWheelFitScale_same.
  - eexists. reflexivity.
Qed.

Lemma step_open (d : Dom) (s : Viewer) :
  step d (IsOpenChanged true) s = s.
Proof. apply step_quiet; reflexivity. Qed.

(** C8. Whatever the instance was before, once [isOpen] has become false
    the scale and the fit scale are 1, the pan offset is zero, the page is
    1, the page count is 0, the instance is loading and has no error; and
    that is the state the next opening starts from. *)
Theorem close_resets_state (d d' : Dom) (s : Viewer) :
  let closed := step d (IsOpenChanged false) s in
  let reopened := step d' (IsOpenChanged true) closed in
  reopened = closed /\
  scale reopened = 1 /\ fitScale reopened = 1 /\
  panOffsetRef reopened = {| x := 0; y := 0 |} /\
  pageNumber reopened = 1%Z /\ numPages reopened = 0%Z /\
  isLoading reopened = true /\ error reopened = None.
Proof.
  cbv zeta. rewrite step_open.
  destruct (step_close d s) as (_ & f & E). rewrite E.
  repeat split; reflexivity.
Qed.

(** After zooming, panning and paging in a loaded document, close and
    reopen give the initial values again. *)
Example close_after_use :
  let used :=
    run [ (Sample.dom, ClickNext); (Sample.dom, ClickZoomIn);
          (Sample.dom, MouseDown (Sample.pointer 10 10));
          (Sample.dom, MouseMove (Sample.pointer 50 70)) ] Sample.loaded in
  let reopened :=
    run [ (Sample.dom, IsOpenChanged false); (Sample.dom, IsOpenChanged true) ] used in
  pageNumber used = 2%Z /\ ~ scale used == 1 /\
  viewportState reopened = viewportState initialViewer /\
  pageNumber reopened = 1%Z /\ numPages reopened = 0%Z /\ isLoading reopened = true.
Proof.
  vm_compute. repeat split; try reflexivity. discriminate.
Qed.

(** C10. The reset on close does not touch [activeMode]: it is after
    close, and after close and reopen, what it was before; an instance put
    in ruler mode, closed and reopened is in ruler mode, not in the default
    drag mode. *)
Theorem close_keeps_activeMode :
  (forall (d d' : Dom) (s : Viewer),
      activeMode (step d (IsOpenChanged false) s) = activeMode s /\
      activeMode (step d' (IsOpenChanged true) (step d (IsOpenChanged false) s))
        = activeMode s) /\
  (forall (mode : string) (d d' d'' : Dom) (s : Viewer),
      activeMode (run [ (d, ModeChanged mode); (d', IsOpenChanged false);
                        (d'', IsOpenChanged true) ] s) = mode) /\
  let reopened :=
    run [ (Sample.dom, ModeChanged "ruler"); (Sample.dom, IsOpenChanged false);
          (Sample.dom, IsOpenChanged true) ] Sample.loaded in
  activeMode reopened = "ruler"%string /\
  activeMode reopened <> activeMode initialViewer /\
  scale reopened = 1 /\ pageNumber reopened = 1%Z /\ isLoading reopened = true.
Proof.
  split; [| split].
  - intros d d' s. rewrite step_open.
    destruct (step_close d s) as (_ & f & E). rewrite E. split; reflexivity.
  - intros mode d d' d'' s. cbn [run]. rewrite step_open.
    destruct (step_close d' (step d (ModeChanged mode) s)) as (_ & f & E). rewrite E.
    rewrite (step_quiet d (ModeChanged mode) s) by reflexivity.
    reflexivity.
  - vm_compute. repeat split; try reflexivity. discriminate.
Qed.

(** ** Relay endpoint *)

Module RelayFacts.
Import Relay.

Lemma ok_2xx (r : UpstreamResponse) :
  ok r = true <-> (200 <= upstreamStatus r <= 299)%Z.
Proof.
  unfold ok. rewrite Bool.andb_true_iff, !Z.leb_le. tauto.
Qed.

Lemma not_ok_2xx (r : UpstreamResponse) :
  ok r = false <-> ~ (200 <= upstreamStatus r <= 299)%Z.
Proof.
  rewrite <- ok_2xx. destruct (ok r); split; intros H; congruence.
Qed.

Lemma GET_missing (fetch : Fetch) (request : Request) :
  get "url" (searchParams request) = None \/
  get "url" (searchParams request) = Some ""%string ->
  GET fetch request = (missingUrl, []).
Proof.
  unfold GET. intros [E | E]; rewrite E; reflexivity.
Qed.

(** With a non-empty [url] the handler answers from the [try] block or
    from its [catch]. *)
Lemma GET_present (fetch : Fetch) (request : Request) (u : string) :
  get "url" (searchParams request) = Some u -> u <> ""%string ->
  GET fetch request =
  match tryFetch fetch u with
  | (Return r, logs) => (r, logs)
  | (Throw e, logs) => (fetchFailed, logs ++ [Error "Error fetching PDF:" e])
  end.
Proof.
  intros E Hu. unfold GET. rewrite E.
  destruct (String.eqb_spec u ""); [contradiction | reflexivity].
Qed.

Lemma tryFetch_status (fetch : Fetch) (u : string) :
  match tryFetch fetch u with
  | (Return r, _) => status r = 200%Z
  | (Throw _, _) => True
  end.
Proof.
  unfold tryFetch, bind, await, ret, throw, log.
  destruct (fetch u) as [r |]; [| exact I].
  destruct (ok r); cbn; [| exact I].
  destruct (notPdf (contentType r)); cbn;
    destruct (arrayBuffer r); cbn; auto.
Qed.

End RelayFacts.

(** C9, as the code has it.  The relay answers 400 with the plain text
    [Missing URL parameter] exactly when the [url] parameter is missing or
    empty.  With a non-empty [url] it answers 500 with the JSON text
    [{"error":"Failed to fetch PDF"}] when the upstream fetch rejects, the
    upstream status is outside 200..299, or reading the body rejects, and
    otherwise 200 with the upstream bytes and the three PDF headers,
    whatever the upstream content type is (a content type that is absent or
    does not mention [application/pdf] only adds a console warning). *)
Theorem GET_responses (fetch : Relay.Fetch) (request : Relay.Request) :
  let url := Relay.get "url" (Relay.searchParams request) in
  let response := fst (Relay.GET fetch request) in
  let console := snd (Relay.GET fetch request) in
  (Relay.status response = 400%Z <-> (url = None \/ url = Some ""%string)) /\
  (url = None \/ url = Some ""%string ->
   response = Relay.mkResponse 400 [] (Relay.Text "Missing URL parameter")) /\
  (forall u : string, url = Some u -> u <> ""%string ->
     (fetch u = None -> response = Relay.fetchFailed) /\
     (forall r, fetch u = Some r ->
        ~ (200 <= Relay.upstreamStatus r <= 299)%Z -> response = Relay.fetchFailed) /\
     (forall r, fetch u = Some r ->
        (200 <= Relay.upstreamStatus r <= 299)%Z -> Relay.arrayBuffer r = None ->
        response = Relay.fetchFailed) /\
     (forall r bytes, fetch u = Some r ->
        (200 <= Relay.upstreamStatus r <= 299)%Z -> Relay.arrayBuffer r = Some bytes ->
        response = Relay.mkResponse 200 Relay.pdfHeaders (Relay.Buffer bytes) /\
        console =
          if Relay.notPdf (Relay.contentType r)
          then [Relay.Warn "Response is not a PDF:" (Relay.contentType r)]
          else [])) /\
  Relay.fetchFailed =
    Relay.mkResponse 500 [("Content-Type", "application/json")]%string
      (Relay.Text ("{" ++ Relay.dquote ++ "error" ++ Relay.dquote ++ ":" ++
                   Relay.dquote ++ "Failed to fetch PDF" ++ Relay.dquote ++ "}")%string) /\
  Relay.pdfHeaders =
    [ ("Content-Type", "application/pdf");
      ("Content-Disposition",
       "inline; filename=" ++ Relay.dquote ++ "document.pdf" ++ Relay.dquote);
      ("Cache-Control", "public, max-age=3600") ]%string.
Proof.
  cbv zeta.
  split; [| split; [| split; [| split; reflexivity]]].
  - split.
    + intros H.
      destruct (Relay.get "url" (Relay.searchParams request)) as [u |] eqn:E;
        [| now left].
      destruct (String.eqb_spec u ""); [subst; now right |].
      exfalso. rewrite (RelayFacts.GET_present fetch request u E n) in H.
      pose proof (RelayFacts.tryFetch_status fetch u) as Hs.
      destruct (Relay.tryFetch fetch u) as [[r | e] logs]; cbn in H.
      * rewrite Hs in H. discriminate.
      * discriminate.
    + intros H. rewrite (RelayFacts.GET_missing fetch request H). reflexivity.
  - intros H. rewrite (RelayFacts.GET_missing fetch request H). reflexivity.
  - intros u E Hu. rewrite (RelayFacts.GET_present fetch request u E Hu).
    unfold Relay.tryFetch, Relay.bind, Relay.await, Relay.ret, Relay.throw, Relay.log.
    split; [| split; [| split]].
    + intros Hf. rewrite Hf. reflexivity.
    + intros r Hf Hs. rewrite Hf. apply RelayFacts.not_ok_2xx in Hs.
      rewrite Hs. reflexivity.
    + intros r Hf Hs Hb. rewrite Hf. apply RelayFacts.ok_2xx in Hs.
      rewrite Hs, Hb. cbn. destruct (Relay.notPdf (Relay.contentType r)); reflexivity.
    + intros r bytes Hf Hs Hb. rewrite Hf. apply RelayFacts.ok_2xx in Hs.
      rewrite Hs, Hb. cbn.
      destruct (Relay.notPdf (Relay.contentType r)); split; reflexivity.
Qed.

Lemma GET_responses_witness :
  let out := Relay.GET Sample.upstream Sample.requestHtml in
  fst out = Relay.mkResponse 200 Relay.pdfHeaders (Relay.Buffer Sample.pdfMagic) /\
  snd out = [Relay.Warn "Response is not a PDF:" (Some "text/html"%string)].
Proof.
  pose proof (GET_responses Sample.upstream Sample.requestHtml) as (_ & _ & H & _).
  assert (Hu : Sample.htmlUrl <> ""%string) by discriminate.
  destruct (H Sample.htmlUrl eq_refl Hu) as (_ & _ & _ & H200).
  assert (Hs : (200 <= 200 <= 299)%Z) by lia.
  exact (H200 (Relay.mkUpstream 200 (Some "text/html"%string) (Some Sample.pdfMagic))
              Sample.pdfMagic eq_refl Hs eq_refl).
Defined.

(** The other answers of the relay on the sample upstream. *)
Example GET_samples :
  Relay.status (fst (Relay.GET Sample.upstream (Relay.mkRequest []))) = 400%Z /\
  Relay.status (fst (Relay.GET Sample.upstream
    (Relay.mkRequest [("url", "https://example.org/missing.pdf")]%string))) = 500%Z /\
  Relay.status (fst (Relay.GET Sample.upstream
    (Relay.mkRequest [("url", "not a url")]%string))) = 500%Z /\
  Relay.GET Sample.upstream (Relay.mkRequest [("url"%string, Sample.pdfUrl)]) =
    (Relay.mkResponse 200 Relay.pdfHeaders (Relay.Buffer Sample.pdfMagic), []).
Proof. vm_compute. repeat split; reflexivity. Qed.

(** C9, as stated, fails in one direction: a request that carries the
    parameter with an empty value ([?url=]) is answered 400 although the
    parameter is not missing. *)
Lemma GET_empty_url_counterexample :
  let request := Relay.mkRequest [("url"%string, ""%string)] in
  let missing := Relay.get "url" (Relay.searchParams request) = None in
  Relay.get "url" (Relay.searchParams request) = Some ""%string /\
  Relay.status (fst (Relay.GET Sample.upstream request)) = 400%Z /\
  ~ (Relay.status (fst (Relay.GET Sample.upstream request)) = 400%Z <-> missing).
Proof.
  cbv zeta. split; [reflexivity | split; [reflexivity |]].
  intros [H _]. specialize (H eq_refl). discriminate H.
Qed.

(** * Further properties of the viewer *)

(** ** The fitted view *)

Lemma calculateFitScale_fitted (d : Dom) (s : Viewer) (c : ContainerEl) (p : PageEl) :
  containerRef d = Some c -> pageRef d = Some p -> isLoading s = false ->
  scale (calculateFitScale d s) = newFitScale PADDING c p /\
  fitScale (calculateFitScale d s) = newFitScale PADDING c p /\
  panOffsetRef (calculateFitScale d s) = fitOffset PADDING c p /\
  lastTransformRef (calculateFitScale d s) = fitOffset PADDING c p.
Proof.
  intros Hc Hp Hl. unfold calculateFitScale, updateTransform.
  rewrite Hc, Hp, Hl. cbn [negb].
  destruct (viewerRef d); repeat split; reflexivity.
Qed.

(** X2. A fit throws the current zoom and pan away: with container and page
    mounted and loading over, the viewport state it leaves depends on the
    measured sizes only, the pan baseline is the new offset, and a second
    fit on the same measurements changes nothing. *)
Theorem fit_discards_zoom_and_pan (d : Dom) (s1 s2 : Viewer)
    (c : ContainerEl) (p : PageEl) :
  containerRef d = Some c -> pageRef d = Some p ->
  isLoading s1 = false -> isLoading s2 = false ->
  viewportState (calculateFitScale d s1) = viewportState (calculateFitScale d s2) /\
  viewportState (onResize d s1) = viewportState (calculateFitScale d s2) /\
  lastTransformRef (calculateFitScale d s1) = panOffsetRef (calculateFitScale d s1) /\
  calculateFitScale d (calculateFitScale d s1) = calculateFitScale d s1.
Proof.
  intros Hc Hp H1 H2.
  destruct (calculateFitScale_fitted d s1 c p Hc Hp H1) as (A1 & B1 & C1 & D1).
  destruct (calculateFitScale_fitted d s2 c p Hc Hp H2) as (A2 & B2 & C2 & _).
  unfold viewportState, onResize. rewrite H1. cbn [negb].
  rewrite A1, B1, C1, A2, B2, C2, D1.
  repeat split.
  unfold calculateFitScale, updateTransform. rewrite Hc, Hp, H1. cbn [negb].
  destruct (viewerRef d);
    cbn [isLoading setViewerTransform setLastTransform setPanOffset setScale
         setFitScale];
    rewrite H1; reflexivity.
Qed.

Lemma fit_discards_zoom_and_pan_witness :
  viewportState (calculateFitScale Sample.dom (clickZoomIn Sample.dom Sample.loaded)) =
  viewportState (calculateFitScale Sample.dom Sample.loaded).
Proof.
  assert (H1 : isLoading (clickZoomIn Sample.dom Sample.loaded) = false)
    by (vm_compute; reflexivity).
  assert (H2 : isLoading Sample.loaded = false) by (vm_compute; reflexivity).
  exact (proj1 (fit_discards_zoom_and_pan Sample.dom
                  (clickZoomIn Sample.dom Sample.loaded) Sample.loaded
                  Sample.container Sample.page eq_refl eq_refl H1 H2)).
Defined.

Lemma pageLoadSuccess_loaded (s : Viewer) :
  isLoading s = false -> pageLoadSuccess s = s.
Proof. destruct s; cbn; intros ->; reflexivity. Qed.

(** X3. Once the first page has loaded, the load callback of a later page does
    nothing: going to another page and having it rendered leaves the
    viewport state (scale, fit scale, pan offset) as it was, whatever the
    size of the new page. *)
Theorem page_change_does_not_refit (d d' : Dom) (s : Viewer) :
  isLoading s = false ->
  step d PageLoaded s = s /\
  viewportState (step d' PageLoaded (step d ClickNext s)) = viewportState s /\
  viewportState (step d' PageLoaded (step d ClickPrevious s)) = viewportState s.
Proof.
  intros Hl.
  assert (G : forall dd t, isLoading t = false -> step dd PageLoaded t = t).
  { intros dd t Ht.
    assert (E : handle dd PageLoaded t = t) by (apply pageLoadSuccess_loaded; exact Ht).
    rewrite step_quiet; rewrite E; reflexivity. }
  split; [apply (G d s Hl) |].
  assert (Hn : step d ClickNext s = clickNext s).
  { apply step_quiet; cbn [handle]; rewrite clickNext_frame; reflexivity. }
  assert (Hp : step d ClickPrevious s = clickPrevious s).
  { apply step_quiet; cbn [handle]; rewrite clickPrevious_frame; reflexivity. }
  rewrite Hn, Hp.
  assert (Ln : isLoading (clickNext s) = false)
    by (rewrite clickNext_frame; exact Hl).
  assert (Lp : isLoading (clickPrevious s) = false)
    by (rewrite clickPrevious_frame; exact Hl).
  rewrite (G d' _ Ln), (G d' _ Lp).
  rewrite clickNext_frame, clickPrevious_frame. split; reflexivity.
Qed.

Lemma page_change_does_not_refit_witness :
  viewportState (step Sample.smallPageDom PageLoaded (step Sample.dom ClickNext Sample.loaded))
  = viewportState Sample.loaded.
Proof.
  assert (Hl : isLoading Sample.loaded = false) by (vm_compute; reflexivity).
  exact (proj1 (proj2 (page_change_does_not_refit Sample.dom Sample.smallPageDom
                         Sample.loaded Hl))).
Defined.

(** ** Wheel and button zoom *)

Lemma Qltb_lt (a b : Q) : Qltb a b = true <-> a < b.
Proof.
  unfold Qltb. rewrite Qlt_alt. destruct (a ?= b); split; congruence.
Qed.

Lemma Qltb_ge (a b : Q) : Qltb a b = false <-> b <= a.
Proof.
  split.
  - intros H. apply Qnot_lt_le. intros Hlt. apply Qltb_lt in Hlt. congruence.
  - intros H. destruct (Qltb a b) eqn:E; [| reflexivity].
    apply Qltb_lt in E. lra.
Qed.

Lemma handleWheel_isFocused (d : Dom) (e : WheelEvent) (s : Viewer) :
  isFocused (handleWheel d e s) = isFocused s.
Proof.
  unfold handleWheel, updateTransform.
  destruct ((ctrlKey (mouse e) || metaKey (mouse e)) && isFocused s),
    (containerRef d), (viewerRef d), (pageRef d); reflexivity.
Qed.

(** X4. A wheel event is ignored unless ctrl or meta is held, the pointer is
    inside the container and container and viewer are mounted; in
    particular plain scrolling never zooms, and no wheel event has an
    effect once the pointer has left the container. *)
Theorem wheel_ignored_unless_accepted (d : Dom) (e : WheelEvent) (s : Viewer) :
  (wheelAccepted d e s = false -> handleWheel d e s = s) /\
  (ctrlKey (mouse e) = false -> metaKey (mouse e) = false -> handleWheel d e s = s) /\
  (forall (d' : Dom) (e' : MouseEvent),
      handleWheel d e (fire "onMouseLeave" d' e' s) = fire "onMouseLeave" d' e' s).
Proof.
  split; [| split].
  - unfold wheelAccepted, handleWheel.
    destruct ((ctrlKey (mouse e) || metaKey (mouse e)) && isFocused s);
      [| reflexivity].
    destruct (containerRef d), (viewerRef d); cbn; intros H;
      try reflexivity; discriminate.
  - intros Hc Hm. unfold handleWheel. rewrite Hc, Hm. reflexivity.
  - intros d' e'. unfold handleWheel. cbn.
    rewrite Bool.andb_false_r. reflexivity.
Qed.

Lemma wheel_ignored_unless_accepted_witness :
  handleWheel Sample.dom (mkWheel (Sample.pointer 400 300) (-1)) Sample.focused
  = Sample.focused /\
  handleWheel Sample.dom (Sample.ctrlWheel 400 300 (-1)) Sample.loaded = Sample.loaded.
Proof.
  split.
  - exact (proj1 (proj2 (wheel_ignored_unless_accepted Sample.dom
                           (mkWheel (Sample.pointer 400 300) (-1)) Sample.focused))
                 eq_refl eq_refl).
  - assert (H : wheelAccepted Sample.dom (Sample.ctrlWheel 400 300 (-1)) Sample.loaded
                = false) by (vm_compute; reflexivity).
    exact (proj1 (wheel_ignored_unless_accepted Sample.dom
                    (Sample.ctrlWheel 400 300 (-1)) Sample.loaded) H).
Defined.

Lemma step_wheel (d : Dom) (e : WheelEvent) (s : Viewer) :
  exists f, step d (Wheel e) s = setWheelFitScale f (handleWheel d e s) /\
            (~ scale s == scale (handleWheel d e s) -> f = fitScale s).
Proof.
  assert (Hl : isLoading (handleWheel d e s) = isLoading s).
  { unfold handleWheel, updateTransform.
    destruct ((ctrlKey (mouse e) || metaKey (mouse e)) && isFocused s),
      (containerRef d), (viewerRef d), (pageRef d); reflexivity. }
  unfold step. cbn [handle].
  destruct (registerWheel_view s (handleWheel d e s)) as (_ & _ & El & _).
  rewrite El, Hl, Bool.eqb_reflx.
  destruct (registerWheel_cases s (handleWheel d e s)) as [(_ & Es & R) | (_ & R)];
    rewrite R.
  - exists (wheelFitScale (handleWheel d e s)). split.
    + now rewrite setWheelFitScale_same.
    + intros N. contradiction.
  - exists (fitScale (handleWheel d e s)). split; [reflexivity |].
    intros _. apply handleWheel_scale_cases.
Qed.

(** X5. Zooming in by one wheel tick and out again by one tick at the same
    pointer position brings back the scale and the pan offset, as long as
    neither step is clamped (the tick in changes the scale, so the tick out
    meets a listener that holds the current fit scale). *)
Theorem wheel_in_then_out_restores (d : Dom) (e1 e2 : WheelEvent) (s : Viewer)
    (c : ContainerEl) (v : DOMRect) :
  (ctrlKey (mouse e1) || metaKey (mouse e1)) = true ->
  (ctrlKey (mouse e2) || metaKey (mouse e2)) = true ->
  isFocused s = true ->
  containerRef d = Some c -> viewerRef d = Some v ->
  clientX (mouse e2) = clientX (mouse e1) ->
  clientY (mouse e2) = clientY (mouse e1) ->
  deltaY e1 < 0 -> 0 <= deltaY e2 ->
  0 < scale s -> scale s * (11 # 10) <= 5 -> fitScale s * (5 # 10) <= scale s ->
  let s2 := step d (Wheel e2) (step d (Wheel e1) s) in
  scale s2 == scale s /\
  x (panOffsetRef s2) == x (panOffsetRef s) /\
  y (panOffsetRef s2) == y (panOffsetRef s).
Proof.
  intros M1 M2 Hfoc Hc Hv EX EY Hin Hout Hpos Hhi Hlo. cbv zeta.
  destruct (handleWheel_accepted d e1 s c v M1 Hfoc Hc Hv) as (S1 & F1 & P1).
  assert (K1 : wheelScale e1 s == scale s * (11 # 10)).
  { unfold wheelScale, zoomFactor.
    replace (Qltb 0 (- deltaY e1)) with true
      by (symmetry; apply Qltb_lt; lra).
    apply Q.min_r. exact Hhi. }
  destruct (step_wheel d e1 s) as (f1 & E1 & Hf1).
  assert (Ef1 : f1 = fitScale s).
  { apply Hf1. rewrite S1, K1. lra. }
  set (s1 := step d (Wheel e1) s) in *.
  assert (V1 : scale s1 = wheelScale e1 s /\ fitScale s1 = fitScale s /\
               panOffsetRef s1 = panOffsetRef (handleWheel d e1 s) /\
               isFocused s1 = true /\ wheelFitScale s1 = fitScale s).
  { rewrite E1. cbn [scale fitScale panOffsetRef isFocused wheelFitScale setWheelFitScale].
    rewrite S1, F1, handleWheel_isFocused. auto. }
  destruct V1 as (S1' & F1' & P1' & Hfoc1 & W1).
  destruct (handleWheel_accepted d e2 s1 c v M2 Hfoc1 Hc Hv) as (S2 & _ & P2).
  assert (K2 : wheelScale e2 s1 == scale s).
  { unfold wheelScale, zoomFactor.
    replace (Qltb 0 (- deltaY e2)) with false
      by (symmetry; apply Qltb_ge; lra).
    rewrite W1, S1'.
    assert (E : wheelScale e1 s / (11 # 10) == scale s) by (rewrite K1; field).
    rewrite E. apply Q.max_r. exact Hlo. }
  assert (C2 : cursorPixel c e2 = cursorPixel c e1)
    by (unfold cursorPixel; rewrite EX, EY; reflexivity).
  destruct (step_wheel d e2 s1) as (f2 & E2 & _).
  rewrite E2. cbn [scale panOffsetRef setWheelFitScale].
  rewrite S2, P2. cbn [x y toWorld]. rewrite C2, P1', S1', P1. cbn [x y toWorld].
  assert (N1 : ~ wheelScale e1 s == 0) by (rewrite K1; lra).
  assert (N0 : ~ scale s == 0) by lra.
  rewrite K2.
  repeat split; try reflexivity; field; split; assumption.
Qed.

Lemma wheel_in_then_out_restores_witness :
  let s2 := step Sample.dom (Wheel (Sample.ctrlWheel 400 300 1))
              (step Sample.dom (Wheel (Sample.ctrlWheel 400 300 (-1))) Sample.focused) in
  scale s2 == scale Sample.focused /\
  x (panOffsetRef s2) == x (panOffsetRef Sample.focused) /\
  y (panOffsetRef s2) == y (panOffsetRef Sample.focused).
Proof.
  assert (Hfoc : isFocused Sample.focused = true) by (vm_compute; reflexivity).
  assert (Hin : deltaY (Sample.ctrlWheel 400 300 (-1)) < 0) by (vm_compute; reflexivity).
  assert (Hout : 0 <= deltaY (Sample.ctrlWheel 400 300 1)) by (vm_compute; discriminate).
  assert (Hpos : 0 < scale Sample.focused) by (vm_compute; reflexivity).
  assert (Hhi : scale Sample.focused * (11 # 10) <= 5) by (vm_compute; discriminate).
  assert (Hlo : fitScale Sample.focused * (5 # 10) <= scale Sample.focused)
    by (vm_compute; discriminate).
  exact (wheel_in_then_out_restores Sample.dom (Sample.ctrlWheel 400 300 (-1))
           (Sample.ctrlWheel 400 300 1) Sample.focused Sample.container
           (mkRect 0 0 800 600) eq_refl eq_refl Hfoc eq_refl eq_refl eq_refl eq_refl
           Hin Hout Hpos Hhi Hlo).
Defined.

(** X6. Whatever the state, zooming in (button or accepted wheel) never
    takes the scale above 5, the zoom-out button never takes it below
    [fitScale * 0.5], and an accepted wheel zoom out never takes it below
    half the fit scale its listener was registered with; in a reachable
    state with a non-negative fit scale that keeps it at or above
    [fitScale * 0.5] as well.  Each direction is clamped on its own side
    only. *)
Theorem zoom_clamps_one_side (d : Dom) (e : WheelEvent) (s : Viewer) (c : ContainerEl) :
  containerRef d = Some c ->
  scale (handleZoomIn d s) <= 5 /\
  fitScale s * (5 # 10) <= scale (handleZoomOut d s) /\
  (wheelAccepted d e s = true -> deltaY e < 0 -> scale (handleWheel d e s) <= 5) /\
  (wheelAccepted d e s = true -> 0 <= deltaY e ->
   wheelFitScale s * (5 # 10) <= scale (handleWheel d e s) /\
   (reachable s -> 0 <= fitScale s ->
    fitScale s * (5 # 10) <= scale (handleWheel d e s))).
Proof.
  intros Hc.
  assert (W : wheelAccepted d e s = true -> scale (handleWheel d e s) = wheelScale e s).
  { unfold wheelAccepted, handleWheel. rewrite Hc.
    destruct ((ctrlKey (mouse e) || metaKey (mouse e)) && isFocused s);
      [| discriminate].
    destruct (viewerRef d); [reflexivity | discriminate]. }
  split; [| split; [| split]].
  - unfold handleZoomIn. rewrite Hc. cbn [scale setScale]. apply Q.le_min_l.
  - unfold handleZoomOut. rewrite Hc. cbn [scale setScale]. apply Q.le_max_l.
  - intros Ha Hd. rewrite (W Ha). unfold wheelScale.
    replace (Qltb 0 (- deltaY e)) with true by (symmetry; apply Qltb_lt; lra).
    apply Q.le_min_l.
  - intros Ha Hd. rewrite (W Ha). unfold wheelScale, zoomFactor.
    replace (Qltb 0 (- deltaY e)) with false by (symmetry; apply Qltb_ge; lra).
    split; [apply Q.le_max_l |].
    intros Hr H0. destruct (reachable_scaleAboveFloor s Hr) as [[Hl | Hl] _].
    + rewrite Hl. apply Q.le_max_l.
    + assert (Ediv : scale s / (11 # 10) == scale s * (10 # 11)) by field.
      revert Ediv. generalize (scale s / (11 # 10)). intros q Ediv.
      destruct (Q.max_spec (wheelFitScale s * (5 # 10)) q) as [[Hm E] | [Hm E]];
        rewrite E; lra.
Qed.

Lemma zoom_clamps_one_side_witness :
  scale (handleZoomIn Sample.smallPageDom Sample.smallPageFitted) <= 5 /\
  fitScale Sample.smallPageFitted * (5 # 10)
    <= scale (handleZoomOut Sample.smallPageDom Sample.smallPageFitted) /\
  fitScale Sample.refitted * (5 # 10)
    <= scale (handleWheel Sample.tinyPageShrunkDom (Sample.ctrlWheel 100 100 1)
                Sample.refitted).
Proof.
  pose proof (zoom_clamps_one_side Sample.smallPageDom (Sample.ctrlWheel 0 0 1)
                Sample.smallPageFitted
                (mkContainer 840 640 (mkRect 0 0 840 640)) eq_refl) as (Hin & Hout & _).
  pose proof (zoom_clamps_one_side Sample.tinyPageShrunkDom (Sample.ctrlWheel 100 100 1)
                Sample.refitted
                (mkContainer 290 290 (mkRect 0 0 290 290)) eq_refl) as (_ & _ & _ & Hw).
  assert (Ha : wheelAccepted Sample.tinyPageShrunkDom (Sample.ctrlWheel 100 100 1)
                 Sample.refitted = true) by (vm_compute; reflexivity).
  assert (Hd : 0 <= deltaY (Sample.ctrlWheel 100 100 1)) by (vm_compute; discriminate).
  assert (Hr : reachable Sample.refitted).
  { unfold Sample.refitted. eexists. split; [| reflexivity].
    repeat constructor; discriminate. }
  assert (H0 : 0 <= fitScale Sample.refitted) by (vm_compute; discriminate).
  split; [exact Hin | split; [exact Hout |]].
  exact (proj2 (Hw Ha Hd) Hr H0).
Defined.

(** X7. The zoom buttons at their limits and away from them: a click changes
    nothing when the scale is at or above 5 (zoom in) or at or below
    [fitScale * 0.5] (zoom out), where the button is disabled; otherwise,
    at a positive scale, zoom-in strictly increases the scale and zoom-out
    strictly decreases it. *)
Theorem zoom_buttons_progress (d : Dom) (s : Viewer) (c : ContainerEl) :
  containerRef d = Some c ->
  (5 <= scale s -> clickZoomIn d s = s) /\
  (scale s <= fitScale s * (5 # 10) -> clickZoomOut d s = s) /\
  (0 < scale s -> scale s < 5 -> scale s < scale (clickZoomIn d s)) /\
  (0 < scale s -> fitScale s * (5 # 10) < scale s ->
   scale (clickZoomOut d s) < scale s).
Proof.
  intros Hc. unfold clickZoomIn, clickZoomOut, click, MAX_SCALE, MIN_SCALE_FACTOR.
  split; [| split; [| split]].
  - intros H. apply Qle_bool_iff in H. rewrite H. reflexivity.
  - intros H. apply Qle_bool_iff in H. rewrite H. reflexivity.
  - intros H0 H5.
    destruct (Qle_bool 5 (scale s)) eqn:E; [apply Qle_bool_iff in E; lra |].
    unfold handleZoomIn. rewrite Hc. cbn [scale setScale].
    destruct (Q.min_spec 5 (scale s * (11 # 10))) as [[_ M] | [_ M]]; rewrite M; lra.
  - intros H0 Hf.
    destruct (Qle_bool (scale s) (fitScale s * (5 # 10))) eqn:E;
      [apply Qle_bool_iff in E; lra |].
    unfold handleZoomOut. rewrite Hc. cbn [scale setScale].
    assert (Ediv : scale s / (11 # 10) == scale s * (10 # 11)) by field.
    revert Ediv. generalize (scale s / (11 # 10)). intros q Ediv.
    destruct (Q.max_spec (fitScale s * (5 # 10)) q) as [[_ M] | [_ M]]; rewrite M; lra.
Qed.

Lemma zoom_buttons_progress_witness :
  scale Sample.loaded < scale (clickZoomIn Sample.dom Sample.loaded) /\
  scale (clickZoomOut Sample.dom Sample.loaded) < scale Sample.loaded.
Proof.
  pose proof (zoom_buttons_progress Sample.dom Sample.loaded Sample.container eq_refl)
    as (_ & _ & Hin & Hout).
  assert (H0 : 0 < scale Sample.loaded) by (vm_compute; reflexivity).
  assert (H5 : scale Sample.loaded < 5) by (vm_compute; reflexivity).
  assert (Hf : fitScale Sample.loaded * (5 # 10) < scale Sample.loaded)
    by (vm_compute; reflexivity).
  split; [exact (Hin H0 H5) | exact (Hout H0 Hf)].
Defined.

(** ** Panning *)

Lemma handleMouseMove_refs (d : Dom) (e : MouseEvent) (s : Viewer) :
  lastTransformRef (handleMouseMove d e s) = lastTransformRef s /\
  startPanRef (handleMouseMove d e s) = startPanRef s /\
  isPanning (handleMouseMove d e s) = isPanning s.
Proof.
  unfold handleMouseMove, updateTransform.
  destruct (isPanning s) eqn:E, (viewerRef d), (containerRef d), (pageRef d);
    cbn; auto.
Qed.

Lemma handleWheel_refs (d : Dom) (e : WheelEvent) (s : Viewer) :
  lastTransformRef (handleWheel d e s) = lastTransformRef s /\
  startPanRef (handleWheel d e s) = startPanRef s /\
  isPanning (handleWheel d e s) = isPanning s.
Proof.
  unfold handleWheel, updateTransform.
  destruct ((ctrlKey (mouse e) || metaKey (mouse e)) && isFocused s),
    (containerRef d), (viewerRef d), (pageRef d); cbn; auto.
Qed.

Lemma handleMouseMove_panOffset (d : Dom) (e : MouseEvent) (s : Viewer) :
  isPanning s = true ->
  panOffsetRef (handleMouseMove d e s) =
  {| x := x (lastTransformRef s) + (clientX e - x (startPanRef s));
     y := y (lastTransformRef s) + (clientY e - y (startPanRef s)) |}.
Proof.
  intros Hp. unfold handleMouseMove. rewrite Hp.
  now rewrite updateTransform_plain_panOffset.
Qed.

(** X8. During a drag the pan offset is a function of the pointer alone: a
    move places the content at the offset of the press plus the pointer's
    displacement since the press, whatever moves or wheel zooms came in
    between, and a move back to the point of the press puts the content
    back where the press found it. *)
Theorem drag_follows_pointer (d : Dom) (down e1 e2 : MouseEvent) (w : WheelEvent)
    (s : Viewer) :
  button down = 0%Z ->
  let pressed := fire "onMouseDown" d down s in
  let direct := fire "onMouseMove" d e2 pressed in
  panOffsetRef (fire "onMouseMove" d e2 (fire "onMouseMove" d e1 pressed))
    = panOffsetRef direct /\
  panOffsetRef (fire "onMouseMove" d e2 (handleWheel d w (fire "onMouseMove" d e1 pressed)))
    = panOffsetRef direct /\
  x (panOffsetRef direct) == x (panOffsetRef s) + (clientX e2 - clientX down) /\
  y (panOffsetRef direct) == y (panOffsetRef s) + (clientY e2 - clientY down) /\
  x (panOffsetRef (fire "onMouseMove" d down pressed)) == x (panOffsetRef s) /\
  y (panOffsetRef (fire "onMouseMove" d down pressed)) == y (panOffsetRef s).
Proof.
  intros Hb. cbv zeta.
  change (fire "onMouseMove") with handleMouseMove.
  change (fire "onMouseDown" d down s) with (handleMouseDown down s).
  set (pressed := handleMouseDown down s).
  assert (Hp : isPanning pressed = true /\
               lastTransformRef pressed = panOffsetRef s /\
               startPanRef pressed = {| x := clientX down; y := clientY down |}).
  { unfold pressed, handleMouseDown. rewrite Hb. cbn. auto. }
  destruct Hp as (Hp & Hl & Hs).
  destruct (handleMouseMove_refs d e1 pressed) as (L1 & S1 & P1).
  destruct (handleWheel_refs d w (handleMouseMove d e1 pressed)) as (L2 & S2 & P2).
  rewrite !handleMouseMove_panOffset
    by (rewrite ?P2, ?P1; exact Hp).
  rewrite L2, S2, L1, S1, Hl, Hs. cbn [x y].
  repeat split; try reflexivity; ring.
Qed.

Lemma drag_follows_pointer_witness :
  let pressed := fire "onMouseDown" Sample.dom (Sample.pointer 100 100) Sample.focused in
  x (panOffsetRef (fire "onMouseMove" Sample.dom (Sample.pointer 130 140) pressed))
    == x (panOffsetRef Sample.focused) + (130 - 100).
Proof.
  pose proof (drag_follows_pointer Sample.dom (Sample.pointer 100 100)
                (Sample.pointer 110 110) (Sample.pointer 130 140)
                (Sample.ctrlWheel 110 110 (-1)) Sample.focused eq_refl)
    as (_ & _ & H & _).
  exact H.
Defined.

Lemma setIsPanning_same (s : Viewer) : isPanning s = false -> setIsPanning false s = s.
Proof. destruct s; cbn; intros ->; reflexivity. Qed.

Lemma step_idle_pointer (d : Dom) (ev : Event) (s : Viewer) :
  isIdlePointer ev = true -> isPanning s = false -> step d ev s = s.
Proof.
  intros Hev Hp.
  assert (H : handle d ev s = s).
  { destruct ev; try discriminate; cbn.
    - unfold handleMouseDown. cbn in Hev.
      destruct (button e =? 0)%Z; [discriminate | reflexivity].
    - unfold handleMouseMove. rewrite Hp. reflexivity.
    - unfold handleMouseUp. now apply setIsPanning_same. }
  rewrite step_quiet; rewrite H; reflexivity.
Qed.

(** X9. Only a press of the primary button starts a drag: while none is in
    progress, pointer moves, releases and presses of other buttons, in any
    number and order, leave the whole instance as it is. *)
Theorem idle_pointer_events_change_nothing (evs : list (Dom * Event)) (s : Viewer) :
  isPanning s = false ->
  Forall (fun de => isIdlePointer (snd de) = true) evs ->
  run evs s = s.
Proof.
  intros Hp Hall. induction Hall as [| [d ev] rest Hev _ IH]; cbn [run].
  - reflexivity.
  - cbn [snd] in Hev. rewrite (step_idle_pointer d ev s Hev Hp). exact IH.
Qed.

Lemma idle_pointer_events_change_nothing_witness :
  run [ (Sample.dom, MouseMove (Sample.pointer 10 10));
        (Sample.dom, MouseDown (mkMouse 2 10 10 false false));
        (Sample.dom, MouseMove (Sample.pointer 90 40));
        (Sample.dom, MouseUp (mkMouse 2 90 40 false false)) ] Sample.focused
  = Sample.focused.
Proof.
  apply idle_pointer_events_change_nothing.
  - vm_compute. reflexivity.
  - repeat constructor.
Defined.

(** ** Close and the pointer state *)

Lemma isOpenEffect_close_twice (s : Viewer) :
  isOpenEffect false (isOpenEffect false s) = isOpenEffect false s.
Proof. destruct s. vm_compute. reflexivity. Qed.

Lemma closed_view (f : Q) (s : Viewer) :
  let closed := setWheelFitScale f (isOpenEffect false s) in
  isPanning closed = isPanning s /\
  isFocused closed = isFocused s /\
  startPanRef closed = startPanRef s /\
  lastTransformRef closed = origin /\
  isOpenEffect false closed = closed.
Proof.
  destruct s. vm_compute. split; [| split; [| split; [| split]]]; reflexivity.
Qed.

(** X10. The reset on close leaves [isPanning], [isFocused] and the recorded
    press position alone and is idempotent; so an instance closed in the
    middle of a drag is still dragging when reopened: the first pointer
    move then places the content at the pointer's displacement from the old
    press position, with no button held. *)
Theorem close_keeps_drag (d d' d'' : Dom) (e : MouseEvent) (s : Viewer) :
  let closed := step d (IsOpenChanged false) s in
  let reopened := step d' (IsOpenChanged true) closed in
  isPanning reopened = isPanning s /\
  isFocused reopened = isFocused s /\
  startPanRef reopened = startPanRef s /\
  step d' (IsOpenChanged false) closed = closed /\
  (isPanning s = true ->
   panOffsetRef (step d'' (MouseMove e) reopened) =
   {| x := 0 + (clientX e - x (startPanRef s));
      y := 0 + (clientY e - y (startPanRef s)) |}).
Proof.
  cbv zeta. rewrite step_open.
  destruct (step_close d s) as (_ & f & E). rewrite E.
  destruct (closed_view f s) as (Hp & Hf & Hs & Hl & I).
  generalize dependent (setWheelFitScale f (isOpenEffect false s)).
  intros closed _ Hp Hf Hs Hl I.
  split; [exact Hp |]. split; [exact Hf |]. split; [exact Hs |].
  split.
  - destruct (step_close d' closed) as (R & _). rewrite R, I.
    apply registerWheel_unchanged; reflexivity.
  - intros Hd. rewrite <- Hp in Hd.
    assert (Q : step d'' (MouseMove e) closed = handleMouseMove d'' e closed).
    { apply step_quiet; cbn [handle]; change (fire "onMouseMove") with handleMouseMove;
        unfold handleMouseMove, updateTransform;
        destruct (isPanning closed), (viewerRef d''), (containerRef d''),
          (pageRef d''); reflexivity. }
    rewrite Q, handleMouseMove_panOffset by exact Hd.
    rewrite Hl, Hs. reflexivity.
Qed.

Lemma close_keeps_drag_witness :
  let dragging := fire "onMouseDown" Sample.dom (Sample.pointer 100 100) Sample.focused in
  let reopened :=
    step Sample.dom (IsOpenChanged true) (step Sample.dom (IsOpenChanged false) dragging) in
  panOffsetRef (step Sample.dom (MouseMove (Sample.pointer 130 140)) reopened) =
  {| x := 0 + (130 - x (startPanRef dragging));
     y := 0 + (140 - y (startPanRef dragging)) |}.
Proof.
  assert (Hp : isPanning (fire "onMouseDown" Sample.dom (Sample.pointer 100 100)
                            Sample.focused) = true) by (vm_compute; reflexivity).
  pose proof (close_keeps_drag Sample.dom Sample.dom Sample.dom (Sample.pointer 130 140)
                (fire "onMouseDown" Sample.dom (Sample.pointer 100 100) Sample.focused))
    as (_ & _ & _ & _ & H).
  exact (H Hp).
Defined.

(** ** The zoom readout and the cursor *)

Lemma Math_round_integer (q : Q) (n : Z) : q == inject_Z n -> Math_round q = n.
Proof.
  intros E. unfold Math_round. rewrite E.
  assert (L : inject_Z n <= inject_Z n + (1 # 2)) by lra.
  assert (U : inject_Z n + (1 # 2) < inject_Z (n + 1))
    by (rewrite inject_Z_plus; change (inject_Z 1) with 1; lra).
  apply Qfloor_resp_le in L. rewrite Qfloor_Z in L.
  pose proof (Qfloor_le (inject_Z n + (1 # 2))) as F.
  assert (F' : inject_Z (Qfloor (inject_Z n + (1 # 2))) < inject_Z (n + 1)) by lra.
  rewrite <- Zlt_Qlt in F'. lia.
Qed.

Lemma Math_round_lower (q : Q) (n : Z) : inject_Z n <= q -> (n <= Math_round q)%Z.
Proof.
  intros H. unfold Math_round.
  assert (L : inject_Z n <= q + (1 # 2)) by lra.
  apply Qfloor_resp_le in L. now rewrite Qfloor_Z in L.
Qed.

(** X11. The readout shows 100 per cent whenever the scale is the fit scale,
    as right after a fit or a reset, and in a reachable state with a fit
    scale in [(0, 5]] it never shows less than 50 per cent. *)
Theorem zoom_readout (d : Dom) (s : Viewer) :
  (~ fitScale s == 0 -> scale s == fitScale s -> zoomPercent s = 100%Z) /\
  (~ fitScale s == 0 -> zoomPercent (handleResetView d s) = 100%Z) /\
  (forall (c : ContainerEl) (p : PageEl),
      containerRef d = Some c -> pageRef d = Some p -> isLoading s = false ->
      ~ newFitScale PADDING c p == 0 ->
      zoomPercent (calculateFitScale d s) = 100%Z) /\
  (reachable s -> 0 < fitScale s -> fitScale s <= 5 -> (50 <= zoomPercent s)%Z).
Proof.
  assert (G : forall t, ~ fitScale t == 0 -> scale t == fitScale t ->
                        zoomPercent t = 100%Z).
  { intros t Hf Es. unfold zoomPercent. apply Math_round_integer.
    rewrite Es. change (inject_Z 100) with 100. now field. }
  split; [apply G |]. split; [| split].
  - intros Hf. apply G.
    + unfold handleResetView. cbn [fitScale setScale].
      rewrite updateTransform_fitScale. exact Hf.
    + unfold handleResetView. cbn [fitScale scale setScale].
      rewrite updateTransform_fitScale. reflexivity.
  - intros c p Hc Hp Hl Hf.
    destruct (calculateFitScale_fitted d s c p Hc Hp Hl) as (Es & Ef & _).
    apply G; rewrite ?Es, Ef; [exact Hf | reflexivity].
  - intros Hr H0 H5.
    assert (H0' : 0 <= fitScale s) by lra.
    destruct (reachable_scaleAboveFloor s Hr) as (_ & Hb).
    destruct (Hb H0' H5) as (_ & Hlo).
    unfold zoomPercent. apply Math_round_lower. change (inject_Z 50) with 50.
    assert (E : scale s / fitScale s * 100 == scale s * 100 / fitScale s)
      by (field; lra).
    rewrite E. apply Qle_shift_div_l; [exact H0 | lra].
Qed.

Lemma zoom_readout_witness :
  zoomPercent Sample.loaded = 100%Z /\
  (50 <= zoomPercent (clickZoomOut Sample.dom (clickZoomOut Sample.dom Sample.loaded)))%Z.
Proof.
  split.
  - assert (Hf : ~ fitScale Sample.loaded == 0) by (vm_compute; discriminate).
    assert (Es : scale Sample.loaded == fitScale Sample.loaded)
      by (vm_compute; reflexivity).
    exact (proj1 (zoom_readout Sample.dom Sample.loaded) Hf Es).
  - assert (Hr : reachable (clickZoomOut Sample.dom (clickZoomOut Sample.dom Sample.loaded))).
    { exists [ (Sample.dom, DocumentLoaded 12); (Sample.dom, PageLoaded);
               (Sample.dom, ClickZoomOut); (Sample.dom, ClickZoomOut) ].
      split; [repeat constructor; discriminate | vm_compute; reflexivity]. }
    assert (H0 : 0 < fitScale (clickZoomOut Sample.dom (clickZoomOut Sample.dom Sample.loaded)))
      by (vm_compute; reflexivity).
    assert (H5 : fitScale (clickZoomOut Sample.dom (clickZoomOut Sample.dom Sample.loaded)) <= 5)
      by (vm_compute; discriminate).
    exact (proj2 (proj2 (proj2 (zoom_readout Sample.dom
             (clickZoomOut Sample.dom (clickZoomOut Sample.dom Sample.loaded))))) Hr H0 H5).
Defined.

(** The readout along a few clicks from the fitted sample view. *)
Example zoom_readout_sample :
  map zoomPercent
    [ Sample.loaded;
      clickZoomIn Sample.dom Sample.loaded;
      clickZoomIn Sample.dom (clickZoomIn Sample.dom Sample.loaded);
      clickZoomOut Sample.dom Sample.loaded;
      clickZoomOut Sample.dom (clickZoomOut Sample.dom Sample.loaded) ]
  = [100; 110; 121; 91; 83]%Z.
Proof. vm_compute. reflexivity. Qed.

(** X12. The cursor is [grabbing] exactly while a drag is in progress, whatever
    the mode: from a primary press until the release (a pointer-leave does
    not end it); otherwise it is the cursor of the mode, and [default] for a
    mode value that is none of the three. *)
Theorem cursor_grabbing_iff_panning (d : Dom) (e : MouseEvent) (s : Viewer) :
  (getCursorStyle s = "grabbing"%string <-> isPanning s = true) /\
  (button e = 0%Z -> getCursorStyle (fire "onMouseDown" d e s) = "grabbing"%string) /\
  getCursorStyle (fire "onMouseUp" d e s) <> "grabbing"%string /\
  getCursorStyle (fire "onMouseLeave" d e s) = getCursorStyle s /\
  (isPanning s = false ->
   (activeMode s = "drag"%string -> getCursorStyle s = "grab"%string) /\
   (activeMode s = "ruler"%string -> getCursorStyle s = "crosshair"%string) /\
   (activeMode s = "comment"%string -> getCursorStyle s = "text"%string) /\
   (activeMode s <> "drag"%string -> activeMode s <> "ruler"%string ->
    activeMode s <> "comment"%string -> getCursorStyle s = "default"%string)).
Proof.
  assert (G : forall t, getCursorStyle t = "grabbing"%string <-> isPanning t = true).
  { intros t. unfold getCursorStyle. destruct (isPanning t); [tauto |].
    destruct (activeMode t =? "drag")%string; [split; discriminate |].
    destruct (activeMode t =? "ruler")%string; [split; discriminate |].
    destruct (activeMode t =? "comment")%string; split; discriminate. }
  split; [apply G |]. split; [| split; [| split]].
  - intros Hb. apply G. cbn. unfold handleMouseDown. rewrite Hb. reflexivity.
  - intros H. apply G in H. discriminate H.
  - reflexivity.
  - unfold getCursorStyle. intros ->. repeat split.
    + intros ->. reflexivity.
    + intros ->. reflexivity.
    + intros ->. reflexivity.
    + intros H1 H2 H3.
      apply String.eqb_neq in H1, H2, H3. now rewrite H1, H2, H3.
Qed.

Lemma cursor_grabbing_iff_panning_witness :
  getCursorStyle (fire "onMouseDown" Sample.dom (Sample.pointer 1 1)
                    (setActiveMode "ruler" Sample.loaded)) = "grabbing"%string /\
  getCursorStyle (setActiveMode "ruler" Sample.loaded) = "crosshair"%string /\
  getCursorStyle (setActiveMode "" Sample.loaded) = "default"%string.
Proof.
  pose proof (cursor_grabbing_iff_panning Sample.dom (Sample.pointer 1 1)
                (setActiveMode "ruler" Sample.loaded)) as (_ & Hg & _ & _ & Hr).
  pose proof (cursor_grabbing_iff_panning Sample.dom (Sample.pointer 1 1)
                (setActiveMode "" Sample.loaded)) as (_ & _ & _ & _ & Hd).
  assert (P1 : isPanning (setActiveMode "ruler" Sample.loaded) = false)
    by (vm_compute; reflexivity).
  assert (P2 : isPanning (setActiveMode "" Sample.loaded) = false)
    by (vm_compute; reflexivity).
  destruct (Hr P1) as (_ & Hr' & _).
  destruct (Hd P2) as (_ & _ & _ & Hd').
  split; [exact (Hg eq_refl) | split; [exact (Hr' eq_refl) |]].
  apply Hd'; discriminate.
Defined.

(** ** A page count below the page number *)

(** X13. A document load sets the page count and leaves the page number alone.
    When the count so reported is below the page number, the next button
    is disabled and the previous button goes back by exactly one page,
    without jumping into the range: it takes [pageNumber - numPages] clicks
    to reach the last page. *)
Theorem page_number_above_count (d : Dom) (n : Z) (s : Viewer) :
  (1 <= n)%Z -> (n < pageNumber s)%Z ->
  let s' := step d (DocumentLoaded n) s in
  numPages s' = n /\ pageNumber s' = pageNumber s /\
  clickNext s' = s' /\
  pageNumber (clickPrevious s') = (pageNumber s - 1)%Z /\
  Nat.iter (Z.to_nat (pageNumber s - n)) clickPrevious s' = setPageNumber n s'.
Proof.
  intros Hn Hlt. cbv zeta.
  assert (E : step d (DocumentLoaded n) s = documentLoadSuccess n s).
  { apply step_quiet; reflexivity. }
  rewrite E. set (s' := documentLoadSuccess n s).
  assert (Hc : numPages s' = n) by reflexivity.
  assert (Hp : pageNumber s' = pageNumber s) by reflexivity.
  split; [exact Hc |]. split; [exact Hp |]. split; [| split].
  - unfold clickNext, click. rewrite Hc, Hp.
    replace (pageNumber s >=? n)%Z with true; [reflexivity |].
    symmetry. rewrite Z.geb_leb. apply Z.leb_le. lia.
  - rewrite clickPrevious_pageNumber, Hp.
    destruct (Z.leb_spec (pageNumber s) 1); lia.
  - assert (G : forall (k : nat) (t : Viewer),
               (1 <= pageNumber t - Z.of_nat k)%Z ->
               Nat.iter k clickPrevious t =
               setPageNumber (pageNumber t - Z.of_nat k) t).
    { induction k as [| k IH]; intros t Ht.
      - cbn [Nat.iter]. rewrite Z.sub_0_r. destruct t; reflexivity.
      - rewrite Nat.iter_succ_r.
        assert (Et : clickPrevious t = setPageNumber (pageNumber t - 1) t).
        { rewrite clickPrevious_frame at 1. rewrite clickPrevious_pageNumber.
          destruct (Z.leb_spec (pageNumber t) 1); [lia |].
          rewrite Z.max_r by lia. reflexivity. }
        rewrite Et, IH by (cbn [pageNumber setPageNumber]; lia).
        cbn [pageNumber setPageNumber].
        replace (pageNumber t - 1 - Z.of_nat k)%Z with (pageNumber t - Z.of_nat (S k))%Z
          by lia.
        destruct t; reflexivity. }
    rewrite G by (rewrite Hp, Z2Nat.id; lia).
    rewrite Hp, Z2Nat.id by lia. f_equal. lia.
Qed.

Lemma page_number_above_count_witness :
  let s := clickNext (clickNext (clickNext Sample.loaded)) in
  let s' := step Sample.dom (DocumentLoaded 2) s in
  pageNumber s' = 4%Z /\ clickNext s' = s' /\
  pageNumber (clickPrevious s') = 3%Z.
Proof.
  assert (Hn : (1 <= 2)%Z) by lia.
  assert (Hlt : (2 < pageNumber (clickNext (clickNext (clickNext Sample.loaded))))%Z)
    by (vm_compute; reflexivity).
  pose proof (page_number_above_count Sample.dom 2
                (clickNext (clickNext (clickNext Sample.loaded))) Hn Hlt)
    as (_ & Hp & Hnext & Hprev & _).
  split; [rewrite Hp; vm_compute; reflexivity |].
  split; [exact Hnext |].
  rewrite Hprev. vm_compute. reflexivity.
Defined.

(** ** What interaction leaves alone, and what it keeps in step *)

Lemma updateTransform_loadState (d : Dom) (k : Q) (o : option Position) (s : Viewer) :
  loadState (updateTransform d k o s) = loadState s.
Proof.
  unfold updateTransform.
  destruct (viewerRef d), (containerRef d), (pageRef d), o; reflexivity.
Qed.

Lemma calculateFitScale_loadState (d : Dom) (s : Viewer) :
  loadState (calculateFitScale d s) = loadState s.
Proof.
  unfold calculateFitScale.
  destruct (containerRef d), (pageRef d), (negb (isLoading s)); try reflexivity.
  now rewrite updateTransform_loadState.
Qed.

Lemma setScale_loadState (k : Q) (s : Viewer) : loadState (setScale k s) = loadState s.
Proof. reflexivity. Qed.

Lemma handle_interaction_loadState (d : Dom) (ev : Event) (s : Viewer) :
  isInteraction ev = true -> loadState (handle d ev s) = loadState s.
Proof.
  intros Hev.
  destruct ev as [isOpen | n | m | | | e | e | e | e | e | e | | | | | | v];
    try discriminate; cbn [handle].
  - unfold onResize. destruct (negb (isLoading s)); [| reflexivity].
    apply calculateFitScale_loadState.
  - unfold handleWheel.
    destruct ((ctrlKey (mouse e) || metaKey (mouse e)) && isFocused s),
      (containerRef d), (viewerRef d); try reflexivity.
    now rewrite setScale_loadState, updateTransform_loadState.
  - cbn. unfold handleMouseDown. destruct (button e =? 0)%Z; reflexivity.
  - cbn. unfold handleMouseMove. destruct (isPanning s); [| reflexivity].
    now rewrite updateTransform_loadState.
  - reflexivity.
  - reflexivity.
  - reflexivity.
  - rewrite clickPrevious_frame. reflexivity.
  - rewrite clickNext_frame. reflexivity.
  - unfold clickZoomIn, click, handleZoomIn.
    destruct (Qle_bool MAX_SCALE (scale s)), (containerRef d); try reflexivity.
    now rewrite setScale_loadState, updateTransform_loadState.
  - unfold clickZoomOut, click, handleZoomOut.
    destruct (Qle_bool (scale s) (fitScale s * MIN_SCALE_FACTOR)), (containerRef d);
      try reflexivity.
    now rewrite setScale_loadState, updateTransform_loadState.
  - unfold clickResetView, click, handleResetView.
    now rewrite setScale_loadState, updateTransform_loadState.
  - reflexivity.
Qed.

Lemma step_interaction (d : Dom) (ev : Event) (s : Viewer) :
  isInteraction ev = true ->
  (exists f, step d ev s = setWheelFitScale f (handle d ev s)) /\
  loadState (step d ev s) = loadState s.
Proof.
  intros Hev. pose proof (handle_interaction_loadState d ev s Hev) as H.
  assert (L : isLoading (handle d ev s) = isLoading s).
  { unfold loadState in H. congruence. }
  destruct (step_cases d ev s) as (f & E & _). cbv zeta in E.
  rewrite L, Bool.eqb_reflx in E. rewrite E.
  split; [exists f; reflexivity | exact H].
Qed.

(** X14. No pointer, wheel, toolbar, mode or resize event ever changes the load
    state: along any sequence of them the error message, the loading flag
    and the page count are what they were, so an error stays on display and
    a loading viewer stays loading until a load callback or a close. *)
Theorem interaction_keeps_load_state (evs : list (Dom * Event)) (s : Viewer) :
  Forall (fun de => isInteraction (snd de) = true) evs ->
  error (run evs s) = error s /\
  isLoading (run evs s) = isLoading s /\
  numPages (run evs s) = numPages s.
Proof.
  intros Hall.
  assert (G : loadState (run evs s) = loadState s).
  { revert s. induction Hall as [| [d ev] rest Hev _ IH]; intros s; cbn [run].
    - reflexivity.
    - rewrite IH. apply step_interaction. exact Hev. }
  unfold loadState in G. inversion G. repeat split; reflexivity.
Qed.

Lemma interaction_keeps_load_state_witness :
  let failed := step Sample.dom (DocumentFailed "Invalid PDF structure") initialViewer in
  let later :=
    run [ (Sample.dom, MouseEnter (Sample.pointer 5 5));
          (Sample.dom, Wheel (Sample.ctrlWheel 5 5 (-1)));
          (Sample.dom, ClickZoomIn); (Sample.dom, ClickResetView);
          (Sample.dom, Resized); (Sample.dom, ClickNext) ] failed in
  error later = error failed /\
  isLoading later = isLoading failed /\
  numPages later = numPages failed.
Proof.
  apply interaction_keeps_load_state. repeat constructor.
Defined.

(** A failed load sets the message [Failed to load document: ...], ends
    loading, and leaves page count and page number alone. *)
Example load_failure_sample :
  let failed := step Sample.dom (DocumentFailed "Invalid PDF structure") initialViewer in
  error failed = Some "Failed to load document: Invalid PDF structure"%string /\
  isLoading failed = false /\ numPages failed = 0%Z /\ pageNumber failed = 1%Z.
Proof. vm_compute. repeat split; reflexivity. Qed.

Lemma updateTransform_synced (d : Dom) (k : Q) (o : option Position) (s : Viewer) :
  mounted d -> transformSynced (setScale k (updateTransform d k o s)).
Proof.
  intros (Hc & Hv & Hp). unfold updateTransform, transformSynced.
  destruct (viewerRef d); [| contradiction].
  destruct (containerRef d); [| contradiction].
  destruct (pageRef d); [| contradiction].
  destruct o; reflexivity.
Qed.

Lemma calculateFitScale_synced (d : Dom) (s : Viewer) :
  mounted d -> transformSynced s -> transformSynced (calculateFitScale d s).
Proof.
  intros (Hc & Hv & Hp) Hs. unfold calculateFitScale, updateTransform.
  destruct (containerRef d); [| contradiction].
  destruct (pageRef d); [| contradiction].
  destruct (negb (isLoading s)); [| exact Hs].
  destruct (viewerRef d); [reflexivity | contradiction].
Qed.

Lemma handle_synced (d : Dom) (ev : Event) (s : Viewer) :
  mounted d -> isClose ev = false ->
  transformSynced s -> transformSynced (handle d ev s).
Proof.
  intros Hm Hev Hs.
  destruct ev as [isOpen | n | m | | | e | e | e | e | e | e | | | | | | v];
    cbn [handle].
  - destruct isOpen; [exact Hs | discriminate].
  - exact Hs.
  - exact Hs.
  - exact Hs.
  - unfold onResize. destruct (negb (isLoading s)); [| exact Hs].
    now apply calculateFitScale_synced.
  - unfold handleWheel.
    destruct ((ctrlKey (mouse e) || metaKey (mouse e)) && isFocused s); [| exact Hs].
    destruct (containerRef d); [| exact Hs].
    destruct (viewerRef d); [| exact Hs].
    now apply updateTransform_synced.
  - cbn. unfold handleMouseDown. destruct (button e =? 0)%Z; exact Hs.
  - cbn. unfold handleMouseMove. destruct (isPanning s); [| exact Hs].
    destruct Hm as (Hc & Hv & Hp). unfold updateTransform, transformSynced.
    destruct (viewerRef d); [| contradiction].
    destruct (containerRef d); [| contradiction].
    destruct (pageRef d); [reflexivity | contradiction].
  - exact Hs.
  - exact Hs.
  - exact Hs.
  - rewrite clickPrevious_frame. exact Hs.
  - rewrite clickNext_frame. exact Hs.
  - unfold clickZoomIn, click, handleZoomIn.
    destruct (Qle_bool MAX_SCALE (scale s)); [exact Hs |].
    destruct (containerRef d); [| exact Hs].
    now apply updateTransform_synced.
  - unfold clickZoomOut, click, handleZoomOut.
    destruct (Qle_bool (scale s) (fitScale s * MIN_SCALE_FACTOR)); [exact Hs |].
    destruct (containerRef d); [| exact Hs].
    now apply updateTransform_synced.
  - unfold clickResetView, click, handleResetView.
    destruct Hm as (Hc & Hv & Hp). unfold updateTransform, transformSynced.
    destruct (viewerRef d); [| contradiction].
    destruct (containerRef d); [| contradiction].
    destruct (pageRef d); [reflexivity | contradiction].
  - exact Hs.
Qed.

(** X15. The transform written on the viewer element never drifts from the
    state: with the three refs set, every event other than a close leaves
    the style equal to [translate(panOffset) scale(scale)] if it was so
    before, along whole runs; and a fit, a reset or an accepted zoom makes
    it so whatever it was. *)
Theorem transform_stays_synced (evs : list (Dom * Event)) (s : Viewer) :
  Forall (fun de => mounted (fst de) /\ isClose (snd de) = false) evs ->
  (transformSynced s -> transformSynced (run evs s)) /\
  (forall d : Dom, mounted d ->
     transformSynced (handleResetView d s) /\
     (isLoading s = false -> transformSynced (calculateFitScale d s)) /\
     transformSynced (handleZoomIn d s) /\
     transformSynced (handleZoomOut d s) /\
     (forall e, wheelAccepted d e s = true -> transformSynced (handleWheel d e s))).
Proof.
  intros Hall. split.
  - revert s. induction Hall as [| [d ev] rest [Hm Hev] _ IH]; intros s Hs; cbn [run].
    + exact Hs.
    + apply IH. cbn [fst snd] in Hm, Hev.
      pose proof (handle_synced d ev s Hm Hev Hs) as H.
      destruct (step_cases d ev s) as (f & E & _). cbv zeta in E. rewrite E.
      change (transformSynced
                (if Bool.eqb (isLoading s) (isLoading (handle d ev s))
                 then handle d ev s else isLoadingEffect d (handle d ev s))).
      destruct (Bool.eqb (isLoading s) (isLoading (handle d ev s))); [exact H |].
      unfold isLoadingEffect.
      destruct (negb (isLoading (handle d ev s))); [| exact H].
      now apply calculateFitScale_synced.
  - intros d Hm.
    pose proof Hm as (Hc & Hv & Hp).
    repeat match goal with |- _ /\ _ => split end.
    + unfold handleResetView. now apply updateTransform_synced.
    + intros Hl. unfold calculateFitScale, updateTransform.
      destruct (containerRef d); [| contradiction].
      destruct (pageRef d); [| contradiction].
      rewrite Hl. cbn [negb].
      destruct (viewerRef d); [reflexivity | contradiction].
    + unfold handleZoomIn. destruct (containerRef d); [| contradiction].
      now apply updateTransform_synced.
    + unfold handleZoomOut. destruct (containerRef d); [| contradiction].
      now apply updateTransform_synced.
    + intros e Ha. unfold wheelAccepted in Ha. unfold handleWheel.
      destruct ((ctrlKey (mouse e) || metaKey (mouse e)) && isFocused s);
        [| discriminate].
      destruct (containerRef d); [| contradiction].
      destruct (viewerRef d); [| contradiction].
      now apply updateTransform_synced.
Qed.

Lemma transform_stays_synced_witness :
  transformSynced
    (run [ (Sample.dom, MouseEnter (Sample.pointer 400 300));
           (Sample.dom, Wheel (Sample.ctrlWheel 400 300 (-1)));
           (Sample.dom, MouseDown (Sample.pointer 400 300));
           (Sample.dom, MouseMove (Sample.pointer 420 310));
           (Sample.dom, MouseUp (Sample.pointer 420 310));
           (Sample.dom, ClickZoomOut); (Sample.dom, ClickNext) ]
         (calculateFitScale Sample.dom Sample.loaded)).
Proof.
  assert (Hm : mounted Sample.dom) by (repeat split; discriminate).
  assert (Hl : isLoading Sample.loaded = false) by (vm_compute; reflexivity).
  assert (Hall : Forall (fun de => mounted (fst de) /\ isClose (snd de) = false)
            [ (Sample.dom, MouseEnter (Sample.pointer 400 300));
              (Sample.dom, Wheel (Sample.ctrlWheel 400 300 (-1)));
              (Sample.dom, MouseDown (Sample.pointer 400 300));
              (Sample.dom, MouseMove (Sample.pointer 420 310));
              (Sample.dom, MouseUp (Sample.pointer 420 310));
              (Sample.dom, ClickZoomOut); (Sample.dom, ClickNext) ])
    by (repeat constructor; discriminate).
  pose proof (transform_stays_synced _ Sample.loaded Hall) as (_ & Hfit).
  destruct (Hfit Sample.dom Hm) as (_ & Hf & _).
  exact (proj1 (transform_stays_synced _ (calculateFitScale Sample.dom Sample.loaded)
                  Hall) (Hf Hl)).
Defined.

(** ** Further properties of the relay *)

Module RelayMore.
Import Relay.

Lemma prefix_app (a b : string) :
  prefix a b = true <-> exists post, b = (a ++ post)%string.
Proof.
  revert b. induction a as [| ch a IH]; intros b; destruct b as [| ch' b]; cbn.
  - split; [intros _; now exists ""%string | reflexivity].
  - split; [intros _; now exists (String ch' b) | reflexivity].
  - split; [discriminate | intros [post H]; discriminate].
  - destruct (Ascii.ascii_dec ch ch') as [-> | Hne].
    + rewrite IH. split; intros [post H]; exists post; [now subst | now inversion H].
    + split; [discriminate | intros [post H]; inversion H; subst; now elim Hne].
Qed.

(** [includes] is the substring test. *)
Lemma includes_substring (needle hay : string) :
  includes needle hay = true <->
  exists pre post, hay = (pre ++ needle ++ post)%string.
Proof.
  induction hay as [| ch hay IH]; cbn [includes]; rewrite Bool.orb_true_iff.
  - split.
    + intros [H | H]; [| discriminate].
      apply prefix_app in H. destruct H as [post H]. now exists ""%string, post.
    + intros (pre & post & H). left. apply prefix_app. exists post.
      destruct pre; [exact H | discriminate].
  - rewrite IH. split.
    + intros [H | (pre & post & H)].
      * apply prefix_app in H. destruct H as [post H]. now exists ""%string, post.
      * exists (String ch pre), post. cbn. now rewrite H.
    + intros (pre & post & H). destruct pre as [| ch' pre].
      * left. apply prefix_app. now exists post.
      * right. cbn in H. inversion H. now exists pre, post.
Qed.

Lemma notPdf_false (ct : option string) :
  notPdf ct = false <->
  exists t pre post, ct = Some t /\ t = (pre ++ "application/pdf" ++ post)%string.
Proof.
  unfold notPdf. destruct ct as [t |].
  - rewrite Bool.orb_false_iff, Bool.negb_false_iff, includes_substring. split.
    + intros (_ & pre & post & H). now exists t, pre, post.
    + intros (t' & pre & post & E & H).
      assert (Et : t' = t) by congruence. rewrite Et in H. clear E Et. split.
      * apply String.eqb_neq. intros E0. rewrite E0 in H.
        destruct pre; discriminate.
      * now exists pre, post.
  - split; [discriminate | intros (t & _ & _ & E & _); discriminate].
Qed.

(** The five ways through the handler. *)
Lemma GET_cases (fetch : Fetch) (request : Request) :
  let url := get "url" (searchParams request) in
  let warning (r : UpstreamResponse) :=
    if notPdf (contentType r)
    then [Warn "Response is not a PDF:" (contentType r)] else [] in
  ((url = None \/ url = Some ""%string) /\ GET fetch request = (missingUrl, [])) \/
  (exists u, url = Some u /\ u <> ""%string /\
     ((fetch u = None /\
       GET fetch request = (fetchFailed, [Error "Error fetching PDF:" FetchRejected])) \/
      (exists r, fetch u = Some r /\
         ((ok r = false /\
           GET fetch request =
             (fetchFailed, [Error "Error fetching PDF:" (HttpError (upstreamStatus r))])) \/
          (ok r = true /\ arrayBuffer r = None /\
           GET fetch request =
             (fetchFailed, warning r ++ [Error "Error fetching PDF:" BodyRejected])) \/
          (exists bytes, ok r = true /\ arrayBuffer r = Some bytes /\
             GET fetch request =
               (mkResponse 200 pdfHeaders (Buffer bytes), warning r)))))).
Proof.
  cbv zeta. unfold GET.
  destruct (get "url" (searchParams request)) as [u |]; [| left; auto].
  destruct (String.eqb_spec u ""); [subst; left; auto |].
  right. exists u. split; [reflexivity | split; [assumption |]].
  unfold tryFetch, bind, await, ret, throw, log.
  destruct (fetch u) as [r |]; [right; exists r; split; [reflexivity |] | left; auto].
  destruct (ok r); cbn [negb]; [| left; auto].
  right.
  destruct (arrayBuffer r) as [bytes |].
  - right. exists bytes.
    destruct (notPdf (contentType r)); cbn; auto.
  - left. destruct (notPdf (contentType r)); cbn; auto.
Qed.

End RelayMore.

(** X16. The relay answers with one of three statuses and never forwards the
    upstream one: 200 exactly when the [url] is non-empty, the upstream
    answered in 200..299 and its body could be read; and it writes an error
    to the console exactly when it answers 500. *)
Theorem GET_status_cases (fetch : Relay.Fetch) (request : Relay.Request) :
  let response := fst (Relay.GET fetch request) in
  let console := snd (Relay.GET fetch request) in
  (Relay.status response = 200%Z \/ Relay.status response = 400%Z \/
   Relay.status response = 500%Z) /\
  (Relay.status response = 200%Z <->
   exists u r bytes,
     Relay.get "url" (Relay.searchParams request) = Some u /\ u <> ""%string /\
     fetch u = Some r /\ (200 <= Relay.upstreamStatus r <= 299)%Z /\
     Relay.arrayBuffer r = Some bytes) /\
  (Relay.status response = 500%Z <->
   exists e, In (Relay.Error "Error fetching PDF:" e) console).
Proof.
  cbv zeta.
  destruct (RelayMore.GET_cases fetch request)
    as [[Hu E] | (u & Hu & Hne & [[Hf E] | (r & Hf & [[Hok E] | [(Hok & Hb & E)
         | (bytes & Hok & Hb & E)]])])];
    rewrite E; cbn [fst snd Relay.status Relay.missingUrl Relay.fetchFailed];
    (split; [auto |]); split; split.
  (* 400 *)
  - discriminate.
  - intros (u & r & bytes & G & Hne & _). destruct Hu as [Hu | Hu]; congruence.
  - discriminate.
  - intros [e []].
  (* 500, fetch rejected *)
  - discriminate.
  - intros (u' & r & bytes & G & _ & Hf' & _). congruence.
  - intros _. eexists. left. reflexivity.
  - reflexivity.
  (* 500, upstream status *)
  - discriminate.
  - intros (u' & r' & bytes & G & _ & Hf' & Hs & _).
    apply RelayFacts.ok_2xx in Hs. congruence.
  - intros _. eexists. left. reflexivity.
  - reflexivity.
  (* 500, body rejected *)
  - discriminate.
  - intros (u' & r' & bytes & G & _ & Hf' & _ & Hb'). congruence.
  - intros _. exists Relay.BodyRejected. apply in_or_app. right. left. reflexivity.
  - reflexivity.
  (* 200 *)
  - intros _. exists u, r, bytes. apply RelayFacts.ok_2xx in Hok. auto.
  - reflexivity.
  - discriminate.
  - intros [e He]. destruct (Relay.notPdf (Relay.contentType r)); cbn in He.
    + destruct He as [He | []]. discriminate.
    + destruct He.
Qed.

Lemma GET_status_cases_witness :
  Relay.status (fst (Relay.GET Sample.upstream Sample.requestHtml)) = 200%Z.
Proof.
  apply (proj1 (proj2 (GET_status_cases Sample.upstream Sample.requestHtml))).
  exists Sample.htmlUrl,
    (Relay.mkUpstream 200 (Some "text/html"%string) (Some Sample.pdfMagic)),
    Sample.pdfMagic.
  repeat split; try reflexivity; try discriminate.
Defined.

Lemma get_first (name v : string) (pre post : list (string * string)) :
  (forall k w, In (k, w) pre -> k <> name) ->
  Relay.get name (pre ++ (name, v) :: post) = Some v.
Proof.
  induction pre as [| [k w] pre IH]; intros H; cbn.
  - now rewrite String.eqb_refl.
  - destruct (String.eqb_spec k name) as [E | _].
    + exfalso. apply (H k w); [now left | exact E].
    + apply IH. intros k' w' Hin. apply (H k' w'). now right.
Qed.

(** X17. Of several [url] parameters the first one counts, and the handler
    fetches that address and no other: two upstreams that agree on it get
    the same response and the same console output, whatever they do
    elsewhere and whatever else the query holds. *)
Theorem GET_fetches_first_url (fetch fetch' : Relay.Fetch) (v : string)
    (pre post : list (string * string)) :
  (forall k w, In (k, w) pre -> k <> "url"%string) ->
  fetch v = fetch' v ->
  Relay.get "url" (pre ++ ("url"%string, v) :: post) = Some v /\
  Relay.GET fetch (Relay.mkRequest (pre ++ ("url"%string, v) :: post)) =
  Relay.GET fetch' (Relay.mkRequest (pre ++ ("url"%string, v) :: post)) /\
  Relay.GET fetch (Relay.mkRequest (pre ++ ("url"%string, v) :: post)) =
  Relay.GET fetch (Relay.mkRequest [("url"%string, v)]).
Proof.
  intros Hpre Hf.
  pose proof (get_first "url" v pre post Hpre) as G.
  split; [exact G |].
  unfold Relay.GET. cbn [Relay.searchParams]. rewrite G.
  cbn [Relay.get]. rewrite String.eqb_refl.
  unfold Relay.tryFetch. rewrite Hf. split; reflexivity.
Qed.

Lemma GET_fetches_first_url_witness :
  Relay.GET Sample.upstream
    (Relay.mkRequest ([("page"%string, "2"%string)] ++
                      ("url"%string, Sample.pdfUrl) ::
                      [("url"%string, "https://example.org/missing.pdf"%string)])) =
  Relay.GET Sample.upstream (Relay.mkRequest [("url"%string, Sample.pdfUrl)]).
Proof.
  assert (Hpre : forall k w, In (k, w) [("page"%string, "2"%string)] -> k <> "url"%string).
  { intros k w [H | []]. inversion H. discriminate. }
  exact (proj2 (proj2 (GET_fetches_first_url Sample.upstream Sample.upstream
                         Sample.pdfUrl [("page"%string, "2"%string)]
                         [("url"%string, "https://example.org/missing.pdf"%string)]
                         Hpre eq_refl))).
Defined.

(** X18. For an upstream answer in 200..299 the console gets the warning
    [Response is not a PDF:] exactly when the upstream content type is
    absent or does not contain [application/pdf] somewhere in it; a content
    type that carries parameters after it, or text before it, passes
    silently. *)
Theorem GET_warns_unless_pdf (fetch : Relay.Fetch) (request : Relay.Request)
    (u : string) (r : Relay.UpstreamResponse) :
  Relay.get "url" (Relay.searchParams request) = Some u -> u <> ""%string ->
  fetch u = Some r -> (200 <= Relay.upstreamStatus r <= 299)%Z ->
  (In (Relay.Warn "Response is not a PDF:" (Relay.contentType r))
      (snd (Relay.GET fetch request)) <->
   ~ exists t pre post,
       Relay.contentType r = Some t /\
       t = (pre ++ "application/pdf" ++ post)%string).
Proof.
  intros Hu Hne Hf Hs. apply RelayFacts.ok_2xx in Hs.
  rewrite <- RelayMore.notPdf_false.
  rewrite (RelayFacts.GET_present fetch request u Hu Hne).
  unfold Relay.tryFetch, Relay.bind, Relay.await, Relay.ret, Relay.throw, Relay.log.
  rewrite Hf, Hs. cbn [negb].
  destruct (Relay.notPdf (Relay.contentType r)), (Relay.arrayBuffer r); cbn;
    split; intros H; try congruence; auto.
  destruct H as [H | []]. discriminate H.
Qed.

Lemma GET_warns_unless_pdf_witness :
  In (Relay.Warn "Response is not a PDF:" (Some "text/html"%string))
     (snd (Relay.GET Sample.upstream Sample.requestHtml)).
Proof.
  assert (Hne : Sample.htmlUrl <> ""%string) by discriminate.
  assert (Hs : (200 <= 200 <= 299)%Z) by lia.
  apply (proj2 (GET_warns_unless_pdf Sample.upstream Sample.requestHtml Sample.htmlUrl
                  (Relay.mkUpstream 200 (Some "text/html"%string) (Some Sample.pdfMagic))
                  eq_refl Hne eq_refl Hs)).
  intros (t & pre & post & E & H). inversion E; subst t.
  assert (C : Relay.includes "application/pdf" "text/html" = true).
  { apply RelayMore.includes_substring. now exists pre, post. }
  vm_compute in C. discriminate C.
Defined.
